(** * The profile validator of [tools/validate_profile_json.py]

    A shallow embedding of [validate] and of the helpers it uses, together with
    the properties of the validator that the project's description states.

    Python is dynamically typed: every attribute access, subscript, membership
    test or iteration may raise when its operand has the wrong runtime type.
    The embedding keeps that: values are untyped JSON-like values, each
    primitive operation returns a [result], and the validator runs in a monad
    that carries the mutable list [errors] and may raise.  That the validator
    never raises is therefore a theorem and not a by-product of typing. *)

From Stdlib Require Import String Ascii ZArith NArith Lia.
From Stdlib Require Import DecimalString DecimalNat DecimalFacts.
From Stdlib.Floats Require Import SpecFloat.
From stdpp Require Import base option list gmap sets.

Set Warnings "-register-all".
Set Default Proof Using "Type".

(** ** Strings

    A Python [str] is a sequence of Unicode code points. *)

Definition pystr : Type := list N.

(** The code points of an ASCII literal. *)
Definition lit (x : string) : pystr :=
  (λ a : ascii, N_of_ascii a) <$> list_ascii_of_string x.

(** [str(n)] for a non-negative integer: its decimal digits. *)
Definition dec (n : nat) : pystr :=
  lit (NilZero.string_of_uint (Nat.to_uint n)).

(** The en dash of the two bullet-count messages, U+2013. *)
Definition en_dash : pystr := [8211%N].

(** [str.isspace] on one code point: the code points whose bidirectional class
    is WS, B or S, or whose general category is Zs. *)
Definition isspace (c : N) : bool :=
  ((9 <=? c) && (c <=? 13) || (28 <=? c) && (c <=? 32)
   || (c =? 133) || (c =? 160) || (c =? 5760)
   || (8192 <=? c) && (c <=? 8202)
   || (c =? 8232) || (c =? 8233) || (c =? 8239) || (c =? 8287)
   || (c =? 12288))%N.

Fixpoint lstrip (s : pystr) : pystr :=
  match s with
  | c :: r => if isspace c then lstrip r else s
  | [] => []
  end.

(** [s.strip()] with no argument removes leading and trailing whitespace. *)
Definition strip (s : pystr) : pystr := reverse (lstrip (reverse (lstrip s))).

(** Truth value of a sequence: non-empty. *)
Definition truthy {A} (l : list A) : bool :=
  match l with [] => false | _ => true end.

Fixpoint startswith (s p : pystr) {struct p} : bool :=
  match p, s with
  | [], _ => true
  | a :: p', b :: s' => (a =? b)%N && startswith s' p'
  | _ :: _, [] => false
  end.

(** [a == b] for two strings. *)
Fixpoint str_eqb (a b : pystr) : bool :=
  match a, b with
  | [], [] => true
  | x :: a', y :: b' => (x =? y)%N && str_eqb a' b'
  | _, _ => false
  end.

(** [needle in hay] for two strings: substring search. *)
Fixpoint str_contains (needle hay : pystr) : bool :=
  startswith hay needle
  || match hay with [] => false | _ :: r => str_contains needle r end.

(** ** Values

    What [json.loads] produces: [None], [bool], [int], [float], [str], [list]
    and [dict] with [str] keys. *)

Inductive value : Type :=
| JNull
| JBool (b : bool)
| JInt (z : Z)
| JFloat (f : spec_float)
| JStr (s : pystr)
| JArr (l : list value)
| JObj (d : gmap (list N) value).

(** A [dict] literal, for examples. *)
Definition obj (l : list (pystr * value)) : value := JObj (list_to_map l).

Definition isinstance_dict (v : value) : bool :=
  match v with JObj _ => true | _ => false end.
Definition isinstance_list (v : value) : bool :=
  match v with JArr _ => true | _ => false end.
Definition isinstance_str (v : value) : bool :=
  match v with JStr _ => true | _ => false end.
(** [isinstance(v, (str, dict))] *)
Definition isinstance_str_or_dict (v : value) : bool :=
  isinstance_str v || isinstance_dict v.
(** [v is None] *)
Definition is_none (v : value) : bool :=
  match v with JNull => true | _ => false end.

(** [v == s] for a string [s]: only an equal string is equal to a string. *)
Definition eq_str (v : value) (s : pystr) : bool :=
  match v with JStr t => str_eqb t s | _ => false end.

(** ** Exceptions and primitive operations *)

Inductive exn : Type := TypeError | AttributeError | KeyError.

Inductive result (A : Type) : Type :=
| Returns (a : A)
| Raises (e : exn).
Arguments Returns {A} a.
Arguments Raises {A} e.

#[global] Instance result_ret : MRet result := λ A a, Returns a.
#[global] Instance result_bind : MBind result := λ A B k r,
  match r with Returns a => k a | Raises e => Raises e end.

(** [v.get(k)]: only a [dict] has the method. *)
Definition py_get (v : value) (k : pystr) : result value :=
  match v with
  | JObj d => Returns (default JNull (d !! k))
  | _ => Raises AttributeError
  end.

(** [v[k]] for a string [k]: [KeyError] on a missing key; a [list] or [str]
    does not take a string index and the other values are not subscriptable. *)
Definition py_getitem (v : value) (k : pystr) : result value :=
  match v with
  | JObj d => match d !! k with Some x => Returns x | None => Raises KeyError end
  | _ => Raises TypeError
  end.

(** [k in d] for a [dict]. *)
Definition has_key (d : gmap (list N) value) (k : pystr) : bool :=
  match d !! k with Some _ => true | None => false end.

(** [k in v] for a string [k]: key membership in a [dict], element membership
    in a [list], substring in a [str]; the other values are not containers. *)
Definition py_in (k : pystr) (v : value) : result bool :=
  match v with
  | JObj d => Returns (has_key d k)
  | JArr l => Returns (existsb (λ x, eq_str x k) l)
  | JStr s => Returns (str_contains k s)
  | _ => Raises TypeError
  end.

(** [v.strip()]: a [str] method. *)
Definition py_strip (v : value) : result pystr :=
  match v with JStr s => Returns (strip s) | _ => Raises AttributeError end.

(** [len(v)] *)
Definition py_len (v : value) : result nat :=
  match v with
  | JArr l => Returns (length l)
  | JStr s => Returns (length s)
  | JObj d => Returns (size d)
  | _ => Raises TypeError
  end.

(** The elements [for x in v] visits.  A [dict] yields its keys (in insertion
    order in Python; [gmap] keeps no such order, and the validator never
    iterates over a [dict]). *)
Definition py_iter (v : value) : result (list value) :=
  match v with
  | JArr l => Returns l
  | JStr s => Returns ((λ c, JStr [c]) <$> s)
  | JObj d => Returns ((λ kv : pystr * value, JStr kv.1) <$> map_to_list d)
  | _ => Raises TypeError
  end.

(** [enumerate(l)] *)
Definition enumerate {A} (l : list A) : list (nat * A) :=
  zip (seq 0 (length l)) l.

(** [all(isinstance(x, str) for x in v)] *)
Definition all_str (v : value) : result bool :=
  xs ← py_iter v; mret (forallb isinstance_str xs).

(** The string a [str] operand contributes to an f-string.  The validator only
    formats operands it has checked to be [str]; any other operand is treated
    as an error here, which can only make the embedding raise more often than
    the program. *)
Definition py_format (v : value) : result pystr :=
  match v with JStr s => Returns s | _ => Raises TypeError end.

(** [seen_ids: set[str]].  [pid in seen_ids] and [seen_ids.add(pid)] are
    modelled for [str] operands, the only ones the annotation allows; any
    other operand is treated as an error, again erring on the side of
    raising. *)
Definition set_in (v : value) (seen_ids : gset pystr) : result bool :=
  match v with
  | JStr s => Returns (bool_decide (s ∈ seen_ids))
  | _ => Raises TypeError
  end.

Definition set_add (v : value) (seen_ids : gset pystr) : result (gset pystr) :=
  match v with
  | JStr s => Returns ({[ s ]} ∪ seen_ids)
  | _ => Raises TypeError
  end.

(** ** The validator's monad: the list [errors] and exceptions *)

Definition M (A : Type) : Type := list pystr → result (A * list pystr).

#[global] Instance M_ret : MRet M := λ A a errors, Returns (a, errors).
#[global] Instance M_bind : MBind M := λ A B k m errors,
  match m errors with
  | Returns (a, errors') => k a errors'
  | Raises e => Raises e
  end.

Definition lift {A} (r : result A) : M A := λ errors,
  match r with Returns a => Returns (a, errors) | Raises e => Raises e end.

(** [_err(errors, message)]: [errors.append(message)]. *)
Definition _err (message : pystr) : M unit := λ errors,
  Returns ((), errors ++ [message]).

(** [if c: body] with no [else]. *)
Definition when (c : bool) (body : M unit) : M unit :=
  if c then body else mret ().

(** [a and b], [a or b]: the right operand is evaluated only when needed. *)
Definition and_then (a : bool) (b : result bool) : result bool :=
  if a then b else Returns false.
Definition or_else (a : bool) (b : result bool) : result bool :=
  if a then Returns true else b.

(** A [for] loop over a list; [acc] carries the local variables the body
    updates. *)
Fixpoint for_acc {A S} (l : list A) (acc : S) (body : A → S → M S) : M S :=
  match l with
  | [] => mret acc
  | x :: r => acc' ← body x acc; for_acc r acc' body
  end.

Definition for_each {A} (l : list A) (body : A → M unit) : M unit :=
  for_acc l () (λ x _, body x).

(** ** The validator *)

Section Validator.

(** [str.lower].  Python lowercases with the case mappings of the Unicode
    character database, which is not part of this repository: the development
    is parametric in it. *)
Variable lower : pystr → pystr.

(** [v.lower()]: a [str] method. *)
Definition py_lower (v : value) : result pystr :=
  match v with JStr s => Returns (lower s) | _ => Raises AttributeError end.

(** [_is_localized(value)] *)
Definition _is_localized (value : value) : result bool :=
  and_then (isinstance_dict value)
    (en ← py_in (lit "en") value; or_else en (py_in (lit "it") value)).

(** [_is_localized(v) or isinstance(v, str)], as the call sites combine them. *)
Definition localized_or_str (v : value) : result bool :=
  loc ← _is_localized v; or_else loc (Returns (isinstance_str v)).

(** Lines 32-34: the required top-level keys. *)
Definition check_required_keys (profile : value) : M unit :=
  for_each [lit "person"; lit "i18n"; lit "projects"] (λ key,
    present ← lift (py_in key profile);
    when (negb present) (_err (lit "Missing required top-level key: " ++ key))).

(** Lines 36-44: [i18n]. *)
Definition check_i18n (profile : value) : M unit :=
  i18n ← lift (py_get profile (lit "i18n"));
  if negb (is_none i18n) && negb (isinstance_dict i18n) then
    _err (lit "i18n must be an object")
  else if isinstance_dict i18n then
    for_each [lit "en"; lit "it"] (λ lang,
      present ← lift (py_in lang i18n);
      if negb present then
        _err (lit "i18n missing language: " ++ lang)
      else
        x ← lift (py_getitem i18n lang);
        when (negb (isinstance_dict x))
          (_err (lit "i18n." ++ lang ++ lit " must be an object")))
  else mret ().

(** Lines 63-75: the [contained] list of project number [idx]. *)
Definition check_contained (idx : nat) (proj : value) : M unit :=
  contained ← lift (py_get proj (lit "contained"));
  when (negb (is_none contained))
    (if negb (isinstance_list contained) then
       _err (lit "projects[" ++ dec idx ++ lit "].contained must be an array")
     else
       items ← lift (py_iter contained);
       for_each (enumerate items) (λ '(cidx, item),
         let here := lit "projects[" ++ dec idx ++ lit "].contained["
                     ++ dec cidx ++ lit "]" in
         if negb (isinstance_dict item) then
           _err (here ++ lit " must be an object")
         else
           name ← lift (py_get item (lit "name"));
           when (negb (isinstance_str_or_dict name))
             (_err (here ++ lit ".name must be string or localized object"));;
           has_tagline ← lift (py_in (lit "tagline") item);
           bad_tagline ← lift (and_then has_tagline
             (tagline ← py_get item (lit "tagline");
              mret (negb (isinstance_str_or_dict tagline))));
           when bad_tagline
             (_err (here ++ lit ".tagline must be string or localized object")))).

(** Lines 77-91: the [spec] object of project number [idx]. *)
Definition check_spec (idx : nat) (proj : value) : M unit :=
  spec ← lift (py_get proj (lit "spec"));
  when (negb (is_none spec))
    (if negb (isinstance_dict spec) then
       _err (lit "projects[" ++ dec idx ++ lit "].spec must be an object")
     else
       has_status ← lift (py_in (lit "status") spec);
       bad_status ← lift (and_then has_status
         (status ← py_getitem spec (lit "status");
          mret (negb (isinstance_str status))));
       when bad_status
         (_err (lit "projects[" ++ dec idx ++ lit "].spec.status must be a string"));;
       for_each [lit "boundary"; lit "purpose"] (λ loc_key,
         has ← lift (py_in loc_key spec);
         bad ← lift (and_then has
           (x ← py_getitem spec loc_key;
            ok ← localized_or_str x;
            mret (negb ok)));
         when bad
           (_err (lit "projects[" ++ dec idx ++ lit "].spec." ++ loc_key
                  ++ lit " must be string or localized object")));;
       for_each [lit "inputs"; lit "outputs"; lit "reuse"; lit "constraints";
                 lit "current_focus"] (λ list_key,
         has ← lift (py_in list_key spec);
         bad ← lift (and_then has
           (x ← py_getitem spec list_key;
            mret (negb (isinstance_list x))));
         when bad
           (_err (lit "projects[" ++ dec idx ++ lit "].spec." ++ list_key
                  ++ lit " must be an array")))).

(** Lines 55-61: the [id] of project number [idx]; returns [seen_ids]. *)
Definition check_id (idx : nat) (proj : value) (seen_ids : gset pystr)
  : M (gset pystr) :=
  pid ← lift (py_get proj (lit "id"));
  bad ← lift (or_else (negb (isinstance_str pid))
    (s ← py_strip pid; mret (negb (truthy s))));
  if (bad : bool) then
    _err (lit "projects[" ++ dec idx ++ lit "].id must be a non-empty string");;
    mret seen_ids
  else
    dup ← lift (set_in pid seen_ids);
    if (dup : bool) then
      shown ← lift (py_format pid);
      _err (lit "Duplicate projects[].id: " ++ shown);;
      mret seen_ids
    else
      lift (set_add pid seen_ids).

(** Lines 51-91: the body of the loop over [enumerate(projects)]. *)
Definition check_project (entry : nat * value) (seen_ids : gset pystr)
  : M (gset pystr) :=
  let '(idx, proj) := entry in
  if negb (isinstance_dict proj) then
    _err (lit "projects[" ++ dec idx ++ lit "] must be an object");;
    mret seen_ids
  else
    seen_ids ← check_id idx proj seen_ids;
    check_contained idx proj;;
    check_spec idx proj;;
    mret seen_ids.

(** Lines 46-91: [projects].  Returns the local variable [projects], which the
    last check of [validate] reads again, and the final [seen_ids] (empty when
    the loop does not run). *)
Definition check_projects (profile : value) : M (value * gset pystr) :=
  projects ← lift (py_get profile (lit "projects"));
  if negb (is_none projects) && negb (isinstance_list projects) then
    _err (lit "projects must be an array");;
    mret (projects, ∅)
  else if isinstance_list projects then
    entries ← lift (py_iter projects);
    seen_ids ← for_acc (enumerate entries) ∅ check_project;
    mret (projects, seen_ids)
  else mret (projects, ∅).

(** Lines 93-103: [contexts]. *)
Definition check_contexts (profile : value) : M unit :=
  contexts ← lift (py_get profile (lit "contexts"));
  when (negb (is_none contexts))
    (if negb (isinstance_dict contexts) then
       _err (lit "contexts must be an object")
     else
       has ← lift (py_in (lit "disclaimer") contexts);
       bad ← lift (and_then has
         (x ← py_getitem contexts (lit "disclaimer");
          ok ← localized_or_str x;
          mret (negb ok)));
       when bad (_err (lit "contexts.disclaimer must be string or localized object"));;
       for_each [lit "direct_work"; lit "operational_exposure"] (λ list_key,
         has ← lift (py_in list_key contexts);
         bad ← lift (and_then has
           (x ← py_getitem contexts list_key;
            mret (negb (isinstance_list x))));
         when bad
           (_err (lit "contexts." ++ list_key ++ lit " must be an array")))).

(** Lines 105-112: [reading]. *)
Definition check_reading (profile : value) : M unit :=
  reading ← lift (py_get profile (lit "reading"));
  when (negb (is_none reading))
    (if negb (isinstance_dict reading) then
       _err (lit "reading must be an object")
     else
       domains ← lift (py_get reading (lit "domains"));
       when (negb (is_none domains) && negb (isinstance_list domains))
         (_err (lit "reading.domains must be an array"))).

Definition required_arrays : list pystr :=
  [lit "research_objective"; lit "architecture_stack"; lit "innovation";
   lit "validation_plan"; lit "engineering_challenges"; lit "dissemination";
   lit "training_teaching"].

(** Lines 114-135: [phd_extract]. *)
Definition check_phd_extract (profile : value) : M unit :=
  phd_extract ← lift (py_get profile (lit "phd_extract"));
  if is_none phd_extract then
    _err (lit "Missing required top-level key: phd_extract")
  else if negb (isinstance_dict phd_extract) then
    _err (lit "phd_extract must be an object")
  else
    source ← lift (py_get phd_extract (lit "source"));
    when (is_none source || negb (isinstance_dict source))
      (_err (lit "phd_extract.source must be an object"));;
    for_each required_arrays (λ key,
      value ← lift (py_get phd_extract key);
      if is_none value then
        _err (lit "phd_extract missing required key: " ++ key)
      else
        bad ← lift (or_else (negb (isinstance_list value))
          (ok ← all_str value; mret (negb ok)));
        when bad
          (_err (lit "phd_extract." ++ key ++ lit " must be an array of strings"))).

(** Lines 146-152: one [item] of a group; [domomea_items] is the accumulator. *)
Definition collect_item (item : value) (domomea_items : list value)
  : M (list value) :=
  if negb (isinstance_dict item) then mret domomea_items
  else
    label ← lift (py_get item (lit "label"));
    label_en ← lift (if isinstance_dict label then py_get label (lit "en")
                     else Returns label);
    hit ← lift (and_then (isinstance_str label_en)
      (l ← py_lower label_en; py_in (lit "domomea") (JStr l)));
    if (hit : bool) then mret (domomea_items ++ [item]) else mret domomea_items.

(** Lines 140-152: one [group] of [proof["categories"]]. *)
Definition collect_group (group : value) (domomea_items : list value)
  : M (list value) :=
  if negb (isinstance_dict group) then mret domomea_items
  else
    items ← lift (py_get group (lit "items"));
    if negb (isinstance_list items) then mret domomea_items
    else
      xs ← lift (py_iter items);
      for_acc xs domomea_items collect_item.

(** Lines 157-165: the checks on the DoMoMEA item number [idx]. *)
Definition check_domomea_item (entry : nat * value) : M unit :=
  let '(idx, item) := entry in
  let here := lit "DoMoMEA proof item #" ++ dec (idx + 1) in
  bullets ← lift (py_get item (lit "bullets"));
  bad ← lift (or_else (negb (isinstance_list bullets))
    (ok ← all_str bullets; mret (negb ok)));
  (if (bad : bool) then
     _err (here ++ lit " bullets must be an array of strings")
   else
     n ← lift (py_len bullets);
     when (negb ((6 <=? n) && (n <=? 10)))
       (_err (here ++ lit " bullets must have 6" ++ en_dash ++ lit "10 items")));;
  source ← lift (py_get item (lit "source"));
  when (negb (isinstance_str_or_dict source))
    (_err (here ++ lit " source must be a string or localized object")).

(** Lines 137-165: [proof]. *)
Definition check_proof (profile : value) : M unit :=
  proof ← lift (py_get profile (lit "proof"));
  guard ← lift (and_then (isinstance_dict proof)
    (categories ← py_get proof (lit "categories");
     mret (isinstance_list categories)));
  when guard
    (categories ← lift (py_getitem proof (lit "categories"));
     groups ← lift (py_iter categories);
     domomea_items ← for_acc groups [] collect_group;
     if negb (truthy domomea_items) then
       _err (lit "proof.categories must include a DoMoMEA evidence item")
     else
       for_each (enumerate domomea_items) check_domomea_item).

(** [next((p for p in l if cond(p)), default)] *)
Fixpoint next_matching (cond : value → result bool) (l : list value)
    (default : value) : result value :=
  match l with
  | [] => Returns default
  | p :: r => c ← cond p; if (c : bool) then Returns p else next_matching cond r default
  end.

(** [isinstance(p, dict) and p.get("id") == "bmi"] *)
Definition is_bmi (p : value) : result bool :=
  and_then (isinstance_dict p)
    (pid ← py_get p (lit "id"); mret (eq_str pid (lit "bmi"))).

(** Lines 167-177: the [bmi] project; [projects] is the local variable set at
    line 46. *)
Definition check_bmi (projects : value) : M unit :=
  when (isinstance_list projects)
    (ps ← lift (py_iter projects);
     bmi ← lift (next_matching is_bmi ps JNull);
     if is_none bmi then
       _err (lit "projects must include id=bmi")
     else
       evidence ← lift (py_get bmi (lit "evidence_bullets"));
       when (negb (is_none evidence))
         (bad ← lift (or_else (negb (isinstance_list evidence))
            (ok ← all_str evidence; mret (negb ok)));
          if (bad : bool) then
            _err (lit "projects[id=bmi].evidence_bullets must be an array of strings")
          else
            n ← lift (py_len evidence);
            when (negb ((4 <=? n) && (n <=? 8)))
              (_err (lit "projects[id=bmi].evidence_bullets must have 4"
                     ++ en_dash ++ lit "8 items")))).

(** Lines 32-177: everything after the root check, in order. *)
Definition checks (profile : value) : M unit :=
  check_required_keys profile;;
  check_i18n profile;;
  '(projects, _) ← check_projects profile;
  check_contexts profile;;
  check_reading profile;;
  check_phd_extract profile;;
  check_proof profile;;
  check_bmi projects.

(** [validate(profile)] *)
Definition validate (profile : value) : result (list pystr) :=
  if negb (isinstance_dict profile) then
    Returns [lit "Root JSON value must be an object"]
  else
    '(_, errors) ← checks profile []; mret errors.

(** ** The command line: [main]

    [main] reads the file, parses it and validates the result.  The two
    library calls it makes are [Path.read_text(encoding="utf-8")] and
    [json.loads]. *)

(** A continuation byte of UTF-8. *)
Definition continuation (c : N) : bool := ((128 <=? c) && (c <=? 191))%N.

(** The codec ["utf-8"]: strict UTF-8.  It has no special case for the
    byte-order mark: the bytes EF BB BF are decoded as the code point U+FEFF
    like any other three-byte sequence (the codec that drops a leading mark
    is ["utf-8-sig"]).  [None] stands for [UnicodeDecodeError].  The
    translation of line endings that text mode adds is left out: it does not
    touch the first character. *)
Fixpoint utf8_decode (bytes : list N) : option pystr :=
  match bytes with
  | [] => Some []
  | b :: r =>
      if (b <? 128)%N then cons b <$> utf8_decode r
      else if ((194 <=? b) && (b <=? 223))%N then
        match r with
        | c1 :: r1 =>
            if continuation c1
            then cons ((b - 192) * 64 + (c1 - 128))%N <$> utf8_decode r1
            else None
        | _ => None
        end
      else if ((224 <=? b) && (b <=? 239))%N then
        match r with
        | c1 :: c2 :: r2 =>
            if (continuation c1 && continuation c2
                && (negb (b =? 224) || (160 <=? c1))
                && (negb (b =? 237) || (c1 <=? 159)))%N
            then cons ((b - 224) * 4096 + (c1 - 128) * 64 + (c2 - 128))%N
                   <$> utf8_decode r2
            else None
        | _ => None
        end
      else if ((240 <=? b) && (b <=? 244))%N then
        match r with
        | c1 :: c2 :: c3 :: r3 =>
            if (continuation c1 && continuation c2 && continuation c3
                && (negb (b =? 240) || (144 <=? c1))
                && (negb (b =? 244) || (c1 <=? 143)))%N
            then cons ((b - 240) * 262144 + (c1 - 128) * 4096
                       + (c2 - 128) * 64 + (c3 - 128))%N
                   <$> utf8_decode r3
            else None
        | _ => None
        end
      else None
  end.

(** The codec ["utf-8-sig"] of the other scripts of the repository: a leading
    byte-order mark is dropped. *)
Definition utf8_sig_decode (bytes : list N) : option pystr :=
  match bytes with
  | 239%N :: 187%N :: 191%N :: r => utf8_decode r
  | _ => utf8_decode bytes
  end.

(** [json.JSONDecodeError]: the message and the position [pos]. *)
Record JSONDecodeError : Type := {
  msg : pystr;
  pos : nat
}.

(** The decoder proper, [JSONDecoder.decode], is part of the Python library
    and not of this repository.  It is followed where it returns a value or
    raises [JSONDecodeError]; a text on which it raises something else
    ([RecursionError] on deep nesting) is outside this model. *)
Variable decode : pystr → JSONDecodeError + value.

(** [json.loads(s)] for a [str], as in CPython's [json/__init__.py]: a string
    that starts with U+FEFF is refused before any decoding, with the message
    below at position 0. *)
Definition json_loads (s : pystr) : JSONDecodeError + value :=
  if startswith s [65279%N] then
    inl {| msg := lit "Unexpected UTF-8 BOM (decode using utf-8-sig)";
           pos := 0 |}
  else decode s.

(** The branch a run of [main] takes.  What the [print] calls of the branch
    do is not part of it: the exit code given for a branch is the one [main]
    returns when they succeed, and a [print] raises [UnicodeEncodeError] on a
    text that [sys.stdout] cannot encode, which depends on the stream and,
    at line 203, on the message (one that quotes an id with a lone surrogate,
    say). *)
Inductive outcome : Type :=
| ReadFailed                        (* [OSError]: lines 189-190, exit code 2 *)
| NotDecoded                        (* [UnicodeDecodeError], not caught *)
| InvalidJSON (e : JSONDecodeError) (* lines 195-197, exit code 1 *)
| ChecksFailed (errors : list pystr)(* lines 201-204, exit code 1 *)
| ChecksRaised (e : exn)            (* an exception of [validate], not caught *)
| Passed.                           (* lines 206-207, exit code 0 *)

(** [main()], on the content of [data/profile.json]; [None] when the file
    cannot be read. *)
Definition main (file : option (list N)) : outcome :=
  match file with
  | None => ReadFailed
  | Some bytes =>
      match utf8_decode bytes with
      | None => NotDecoded
      | Some raw =>
          match json_loads raw with
          | inl e => InvalidJSON e
          | inr profile =>
              match validate profile with
              | Returns errors =>
                  if truthy errors then ChecksFailed errors else Passed
              | Raises e => ChecksRaised e
              end
          end
      end
  end.

End Validator.

(** An instance of [lower] for ASCII text, used to run the validator. *)
Definition ascii_lower (s : pystr) : pystr :=
  (λ c, if (65 <=? c) && (c <=? 90) then c + 32 else c)%N <$> s.

(** * The vocabulary of the properties

    What the statements below are written with: how a computation of the
    monad runs, the families of messages, the result of the blocks of
    [validate], and the notions each property speaks of. *)

Section Vocabulary.
Variable lower : pystr → pystr.

(** ** How a computation runs *)

(** [runs m a out]: from any list [errors], [m] returns [a] without raising
    and appends the messages [out], leaving those already there in place. *)
Definition runs {A} (m : M A) (a : A) (out : list pystr) : Prop :=
  ∀ errors, m errors = Returns (a, errors ++ out).

(** [silent m a]: [m] returns [a] and leaves [errors] as it is. *)
Definition silent {A} (m : M A) (a : A) : Prop :=
  ∀ errors, m errors = Returns (a, errors).

(** [emits m Q]: [m] runs, and its result and the messages it appends satisfy
    [Q]. *)
Definition emits {A} (m : M A) (Q : A → list pystr → Prop) : Prop :=
  ∃ a out, runs m a out ∧ Q a out.

(** [says P m]: [m] runs, and every message it appends satisfies [P]. *)
Definition says {A} (P : pystr → Prop) (m : M A) : Prop :=
  emits m (λ _ out, Forall P out).

(** [quiet m Q]: [m] runs, returns [a] with [Q a] and appends no message. *)
Definition quiet {A} (m : M A) (Q : A → Prop) : Prop :=
  emits m (λ a out, out = [] ∧ Q a).

Definition all_dicts (l : list value) : Prop :=
  Forall (λ v, isinstance_dict v = true) l.

(** ** The families of messages

    Each block of [validate] has its own messages, recognisable by how they
    start.  A family is given by the prefixes its messages start with. *)

Definition has_prefix_in (family : list pystr) (m : pystr) : bool :=
  existsb (startswith m) family.

(** [from family m]: the message [m] belongs to [family]. *)
Definition from (family : list pystr) (m : pystr) : Prop :=
  has_prefix_in family m = true.

(** No prefix of one family is comparable with a prefix of the other: no
    message belongs to both. *)
Definition apart (f1 f2 : list pystr) : bool :=
  forallb (λ p, forallb (λ q, negb (startswith p q || startswith q p)) f2) f1.

Definition is_digit (c : N) : bool := ((48 <=? c) && (c <=? 57))%N.
Definition digits : list N := [48; 49; 50; 51; 52; 53; 54; 55; 56; 57]%N.

Definition family_required : list pystr :=
  [lit "Missing required top-level key: person";
   lit "Missing required top-level key: i18n";
   lit "Missing required top-level key: projects"].
Definition family_i18n : list pystr := [lit "i18n"].
(** The messages about project number [idx] start with [projects[] and a
    digit. *)
Definition family_indexed : list pystr :=
  (λ c, lit "projects[" ++ [c]) <$> digits.
Definition family_duplicate : list pystr := [lit "Duplicate projects[].id: "].
Definition family_projects : list pystr :=
  [lit "projects must be an array"] ++ family_duplicate ++ family_indexed.
Definition family_contexts : list pystr := [lit "contexts"].
Definition family_reading : list pystr := [lit "reading"].
Definition family_phd_extract : list pystr :=
  [lit "Missing required top-level key: phd_extract"; lit "phd_extract"].
Definition family_proof : list pystr :=
  [lit "proof.categories"; lit "DoMoMEA proof item #"].
Definition family_bmi : list pystr :=
  [lit "projects must include id=bmi"; lit "projects[id=bmi]"].

(** The families of the eight blocks, in the order of the blocks. *)
Definition families : list (list pystr) :=
  [family_required; family_i18n; family_projects; family_contexts;
   family_reading; family_phd_extract; family_proof; family_bmi].

(** Any two families of the list are apart. *)
Fixpoint pairwise_apart (fs : list (list pystr)) : bool :=
  match fs with
  | [] => true
  | f :: r => forallb (apart f) r && pairwise_apart r
  end.

(** ** The blocks of [validate] *)

(** The messages of the eight blocks. *)
Record outputs : Type := {
  out_required : list pystr;
  out_i18n : list pystr;
  out_projects : list pystr;
  out_contexts : list pystr;
  out_reading : list pystr;
  out_phd_extract : list pystr;
  out_proof : list pystr;
  out_bmi : list pystr
}.

Definition all_outputs (o : outputs) : list pystr :=
  out_required o ++ out_i18n o ++ out_projects o ++ out_contexts o
  ++ out_reading o ++ out_phd_extract o ++ out_proof o ++ out_bmi o.

(** The value of the local variable [projects]. *)
Definition projects_of (d : gmap (list N) value) : value :=
  default JNull (d !! lit "projects").

(** Every block runs on the object [d], whatever the list [errors] holds when
    it starts, and appends the messages [o] gives for it. *)
Definition blocks_run (d : gmap (list N) value) (o : outputs) : Prop :=
  runs (check_required_keys (JObj d)) () (out_required o)
  ∧ runs (check_i18n (JObj d)) () (out_i18n o)
  ∧ (∃ seen_ids,
       runs (check_projects (JObj d)) (projects_of d, seen_ids) (out_projects o))
  ∧ runs (check_contexts (JObj d)) () (out_contexts o)
  ∧ runs (check_reading (JObj d)) () (out_reading o)
  ∧ runs (check_phd_extract (JObj d)) () (out_phd_extract o)
  ∧ runs (check_proof lower (JObj d)) () (out_proof o)
  ∧ runs (check_bmi (projects_of d)) () (out_bmi o).

(** Every block appends messages of its own family only. *)
Definition in_families (o : outputs) : Prop :=
  Forall (from family_required) (out_required o)
  ∧ Forall (from family_i18n) (out_i18n o)
  ∧ Forall (from family_projects) (out_projects o)
  ∧ Forall (from family_contexts) (out_contexts o)
  ∧ Forall (from family_reading) (out_reading o)
  ∧ Forall (from family_phd_extract) (out_phd_extract o)
  ∧ Forall (from family_proof) (out_proof o)
  ∧ Forall (from family_bmi) (out_bmi o).

(** ** The root value and localized text *)

Definition root_message : pystr := lit "Root JSON value must be an object".

(** An object with the key ["en"] or the key ["it"]. *)
Definition localized_object (v : value) : bool :=
  match v with
  | JObj d => has_key d (lit "en") || has_key d (lit "it")
  | _ => false
  end.

(** ** Missing keys *)

(** The message of lines 34 and 114. *)
Definition missing_key (key : pystr) : pystr :=
  lit "Missing required top-level key: " ++ key.

(** The messages about ["i18n"]: the one of line 34 for this key and those
    of the [i18n] block. *)
Definition about_i18n : list pystr := missing_key (lit "i18n") :: family_i18n.

(** ** Projects *)

(** The id a project entry registers in [seen_ids]: the ["id"] of an object
    when it is a string that is not blank. *)
Definition registered_id (p : value) : option pystr :=
  match p with
  | JObj e =>
      match e !! lit "id" with
      | Some (JStr s) => if truthy (strip s) then Some s else None
      | _ => None
      end
  | _ => None
  end.

Definition id_message (idx : nat) : pystr :=
  lit "projects[" ++ dec idx ++ lit "].id must be a non-empty string".
Definition duplicate_message (pid : pystr) : pystr :=
  lit "Duplicate projects[].id: " ++ pid.
Definition not_object_message (idx : nat) : pystr :=
  lit "projects[" ++ dec idx ++ lit "] must be an object".

(** A message about the entry number [idx]: [projects[idx]] followed by a
    text that starts with one of [tails]. *)
Definition entry_message (idx : nat) (tails : list pystr) (m : pystr) : Prop :=
  ∃ rest, m = lit "projects[" ++ dec idx ++ rest
          ∧ has_prefix_in tails rest = true.

(** The string starts with a character that is not a digit. *)
Definition nondigit_head (s : pystr) : bool :=
  match s with c :: _ => negb (is_digit c) | [] => false end.
Definition is_duplicate (m : pystr) : bool := has_prefix_in family_duplicate m.

(** Entry [i] repeats an id: it registers an id that an entry before it
    registers too. *)
Definition repeats (ps : list value) (entry : nat * value) : option pystr :=
  pid ← registered_id entry.2;
  if bool_decide (pid ∈ omap registered_id (take entry.1 ps))
  then Some pid else None.

(** The ids of the entries that repeat one, in the order of the array. *)
Definition repeated_ids (ps : list value) : list pystr :=
  omap (repeats ps) (enumerate ps).

Definition bmi_required : pystr := lit "projects must include id=bmi".

(** A project entry whose id equals ["bmi"]. *)
Definition has_id_bmi (p : value) : bool :=
  match p with
  | JObj e =>
      match e !! lit "id" with
      | Some (JStr s) => str_eqb s (lit "bmi")
      | _ => false
      end
  | _ => false
  end.

Definition bmi_bounds : pystr :=
  lit "projects[id=bmi].evidence_bullets must have 4" ++ en_dash
  ++ lit "8 items".

(** ** [phd_extract] *)

Definition phd_missing_key (key : pystr) : pystr :=
  lit "phd_extract missing required key: " ++ key.
Definition phd_not_strings (key : pystr) : pystr :=
  lit "phd_extract." ++ key ++ lit " must be an array of strings".

(** ** [proof] and the DoMoMEA items *)

(** A message of the [proof] block: the missing-item message or a message
    about a DoMoMEA item. *)
Definition proof_message (m : pystr) : bool := has_prefix_in family_proof m.

(** ["proof"] is absent, or is not an object, or is an object whose
    ["categories"] is not an array. *)
Definition proof_unusable (d : gmap (list N) value) : Prop :=
  d !! lit "proof" = None
  ∨ (∃ v, d !! lit "proof" = Some v ∧ isinstance_dict v = false)
  ∨ (∃ p, d !! lit "proof" = Some (JObj p)
          ∧ ∀ l, p !! lit "categories" ≠ Some (JArr l)).

(** The message of line 155. *)
Definition domomea_required : pystr :=
  lit "proof.categories must include a DoMoMEA evidence item".

(** The 6-10 message of the DoMoMEA item of the given (1-based) number. *)
Definition domomea_bounds (number : nat) : pystr :=
  (lit "DoMoMEA proof item #" ++ dec number)
  ++ lit " bullets must have 6" ++ en_dash ++ lit "10 items".

(** The English label of an item: [label.get("en")] when the label is an
    object, the label itself otherwise. *)
Definition label_en (item : value) : value :=
  match item with
  | JObj it =>
      match default JNull (it !! lit "label") with
      | JObj l => default JNull (l !! lit "en")
      | label => label
      end
  | _ => JNull
  end.

(** A DoMoMEA item: an object whose English label is a string that contains
    ["domomea"] once lowercased. *)
Definition is_domomea (item : value) : bool :=
  isinstance_dict item
  && match label_en item with
     | JStr s => str_contains (lit "domomea") (lower s)
     | _ => false
     end.

(** The items of a group: its ["items"] when the group is an object and they
    are an array. *)
Definition items_of (group : value) : list value :=
  match group with
  | JObj g => match g !! lit "items" with Some (JArr xs) => xs | _ => [] end
  | _ => []
  end.

(** The DoMoMEA items of [proof["categories"]], in order. *)
Definition domomea_items (groups : list value) : list value :=
  List.filter is_domomea (concat (items_of <$> groups)).

(** ** The accepted documents

    For each block of [validate], the objects on which it appends nothing. *)

(** [clean C m]: [m] runs, and appends no message exactly when [C] holds. *)
Definition clean {A} (C : Prop) (m : M A) : Prop :=
  emits m (λ _ out, out = [] ↔ C).

(** The key [k] is absent from [d], or maps to a value that satisfies [P]. *)
Definition absent_or (P : value → bool) (d : gmap (list N) value)
    (k : pystr) : bool :=
  match d !! k with None => true | Some v => P v end.

(** The key [k] of [d] is absent, maps to [None], or maps to a value that
    satisfies [P]: what [d.get(k)] followed by an [is not None] test lets
    through. *)
Definition none_or (P : value → bool) (d : gmap (list N) value)
    (k : pystr) : bool :=
  match d !! k with None | Some JNull => true | Some v => P v end.

(** A string or an object with one of the two language keys. *)
Definition text_ok (v : value) : bool :=
  localized_object v || isinstance_str v.

(** An array whose elements are all strings. *)
Definition strings_array (v : value) : bool :=
  match v with JArr l => forallb isinstance_str l | _ => false end.

(** The three keys of lines 32-34 are present. *)
Definition required_ok (d : gmap (list N) value) : bool :=
  forallb (has_key d) [lit "person"; lit "i18n"; lit "projects"].

(** ["i18n"] is absent or [None], or is an object whose ["en"] and ["it"]
    are both objects. *)
Definition i18n_ok (d : gmap (list N) value) : bool :=
  none_or (λ v, match v with
                | JObj l =>
                    forallb (λ lang, match l !! lang with
                                     | Some x => isinstance_dict x
                                     | None => false
                                     end)
                            [lit "en"; lit "it"]
                | _ => false
                end) d (lit "i18n").

(** An element of ["contained"]: an object whose ["name"] is a string or an
    object and whose ["tagline"], when the key is there, is one too. *)
Definition contained_item_ok (item : value) : bool :=
  match item with
  | JObj it =>
      isinstance_str_or_dict (default JNull (it !! lit "name"))
      && absent_or isinstance_str_or_dict it (lit "tagline")
  | _ => false
  end.

Definition contained_ok (e : gmap (list N) value) : bool :=
  none_or (λ v, match v with
                | JArr items => forallb contained_item_ok items
                | _ => false
                end) e (lit "contained").

Definition spec_ok (e : gmap (list N) value) : bool :=
  none_or (λ v, match v with
                | JObj sp =>
                    absent_or isinstance_str sp (lit "status")
                    && forallb (absent_or text_ok sp)
                         [lit "boundary"; lit "purpose"]
                    && forallb (absent_or isinstance_list sp)
                         [lit "inputs"; lit "outputs"; lit "reuse";
                          lit "constraints"; lit "current_focus"]
                | _ => false
                end) e (lit "spec").

(** A project entry that is not reported, duplicates apart: an object that
    registers an id and whose ["contained"] and ["spec"] are accepted. *)
Definition project_ok (p : value) : bool :=
  match p with
  | JObj e =>
      match registered_id p with Some _ => true | None => false end
      && contained_ok e && spec_ok e
  | _ => false
  end.

(** ["projects"] is absent or [None], or is an array of accepted entries
    whose ids are pairwise distinct. *)
Definition projects_ok (d : gmap (list N) value) : Prop :=
  match d !! lit "projects" with
  | None | Some JNull => True
  | Some (JArr ps) =>
      forallb project_ok ps = true ∧ NoDup (omap registered_id ps)
  | Some _ => False
  end.

Definition contexts_ok (d : gmap (list N) value) : bool :=
  none_or (λ v, match v with
                | JObj c =>
                    absent_or text_ok c (lit "disclaimer")
                    && forallb (absent_or isinstance_list c)
                         [lit "direct_work"; lit "operational_exposure"]
                | _ => false
                end) d (lit "contexts").

Definition reading_ok (d : gmap (list N) value) : bool :=
  none_or (λ v, match v with
                | JObj r => none_or isinstance_list r (lit "domains")
                | _ => false
                end) d (lit "reading").

(** ["phd_extract"] is an object whose ["source"] is an object and whose
    seven required keys map to arrays of strings. *)
Definition phd_extract_ok (d : gmap (list N) value) : bool :=
  match d !! lit "phd_extract" with
  | Some (JObj pe) =>
      isinstance_dict (default JNull (pe !! lit "source"))
      && forallb (λ key, strings_array (default JNull (pe !! key)))
           required_arrays
  | _ => false
  end.

(** A DoMoMEA item that is not reported: 6 to 10 bullets, all strings, and a
    ["source"] that is a string or an object. *)
Definition domomea_item_ok (item : value) : bool :=
  match item with
  | JObj it =>
      match default JNull (it !! lit "bullets") with
      | JArr bs =>
          forallb isinstance_str bs
          && ((6 <=? length bs) && (length bs <=? 10))
      | _ => false
      end
      && isinstance_str_or_dict (default JNull (it !! lit "source"))
  | _ => false
  end.

(** The groups the [proof] block looks at: [proof["categories"]] when
    ["proof"] is an object and ["categories"] an array. *)
Definition proof_groups (d : gmap (list N) value) : option (list value) :=
  match d !! lit "proof" with
  | Some (JObj p) =>
      match p !! lit "categories" with
      | Some (JArr groups) => Some groups
      | _ => None
      end
  | _ => None
  end.

(** Either the [proof] block has nothing to look at, or there is a DoMoMEA
    item and every DoMoMEA item is accepted. *)
Definition proof_ok (d : gmap (list N) value) : bool :=
  match proof_groups d with
  | Some groups =>
      truthy (domomea_items groups)
      && forallb domomea_item_ok (domomea_items groups)
  | None => true
  end.

(** The entry [next] selects at line 168: the first object of id ["bmi"]. *)
Definition bmi_project (ps : list value) : option value :=
  List.find has_id_bmi ps.

(** Either ["projects"] is not an array, or its first entry of id ["bmi"]
    exists and has an ["evidence_bullets"] that is absent, [None], or an array
    of 4 to 8 strings. *)
Definition bmi_ok (d : gmap (list N) value) : bool :=
  match d !! lit "projects" with
  | Some (JArr ps) =>
      match bmi_project ps with
      | Some (JObj b) =>
          none_or (λ v, match v with
                        | JArr bs =>
                            forallb isinstance_str bs
                            && ((4 <=? length bs) && (length bs <=? 8))
                        | _ => false
                        end) b (lit "evidence_bullets")
      | _ => false
      end
  | _ => true
  end.

(** No message of the family [f]. *)
Definition none_from (f : list pystr) (errors : list pystr) : Prop :=
  Forall (λ m, has_prefix_in f m = false) errors.

(** The messages of [errors] that belong to [family], in order. *)
Definition messages_from (family : list pystr) (errors : list pystr)
  : list pystr :=
  List.filter (has_prefix_in family) errors.

(** The key each part of [validate] reads, with the family of the messages
    it can lead to; ["projects"] is read by the [projects] block and by the
    [bmi] block. *)
Definition sections : list (pystr * list pystr) :=
  [(lit "i18n", family_i18n);
   (lit "projects", family_projects ++ family_bmi);
   (lit "contexts", family_contexts);
   (lit "reading", family_reading);
   (lit "phd_extract", family_phd_extract);
   (lit "proof", family_proof)].

(** The documents [validate] accepts. *)
Definition accepted (d : gmap (list N) value) : Prop :=
  required_ok d = true ∧ i18n_ok d = true ∧ projects_ok d
  ∧ contexts_ok d = true ∧ reading_ok d = true ∧ phd_extract_ok d = true
  ∧ proof_ok d = true ∧ bmi_ok d = true.



(** ** The command line *)

Definition bom_refused : JSONDecodeError :=
  {| msg := lit "Unexpected UTF-8 BOM (decode using utf-8-sig)"; pos := 0 |}.

(** ** Documents to run the validator on *)

(** Whether [validate] returns a list that holds the message [m]. *)
Definition reports (r : result (list pystr)) (m : pystr) : bool :=
  match r with
  | Returns errors => existsb (str_eqb m) errors
  | Raises _ => false
  end.

(** A document with a wrong shape in every block. *)
Definition malformed_document : value :=
  obj [(lit "i18n", JInt 3);
       (lit "projects",
        JArr [JNull;
              obj [(lit "id", JInt 5); (lit "contained", JStr (lit "x"));
                   (lit "spec", JArr [])]]);
       (lit "contexts", JArr []);
       (lit "reading", JStr (lit "r"));
       (lit "phd_extract",
        obj [(lit "source", JInt 1); (lit "innovation", JArr [JInt 1])]);
       (lit "proof",
        obj [(lit "categories",
              JArr [JNull;
                    obj [(lit "items",
                          JArr [JNull;
                                obj [(lit "label",
                                      obj [(lit "en", JStr (lit "DoMoMEA"))])]])]])])].

(** A document that every block accepts. *)
Definition accepted_document : value :=
  obj [(lit "person", obj []);
       (lit "i18n", obj [(lit "en", obj []); (lit "it", obj [])]);
       (lit "projects", JArr [obj [(lit "id", JStr (lit "bmi"))]]);
       (lit "phd_extract",
        obj ((lit "source", obj [])
             :: ((λ key, (key, JArr [])) <$> required_arrays)))].



(** A document whose [bmi] project has [n] evidence bullets. *)
Definition bmi_document (n : nat) : value :=
  obj [(lit "projects",
        JArr [obj [(lit "id", JStr (lit "bmi"));
                   (lit "evidence_bullets",
                    JArr (replicate n (JStr (lit "b"))))]])].

(** A document whose only DoMoMEA item has [n] bullets. *)
Definition domomea_document (n : nat) : value :=
  obj [(lit "proof",
        obj [(lit "categories",
              JArr [obj [(lit "items",
                          JArr [obj [(lit "label",
                                      JStr (lit "The DoMoMEA trial"));
                                     (lit "source", JStr (lit "report"));
                                     (lit "bullets",
                                      JArr (replicate n (JStr (lit "b"))))]])]])])].

End Vocabulary.

(** * Reasoning about the monad *)

Lemma runs_det {A} (m : M A) (a a' : A) (out out' : list pystr) :
  runs m a out → runs m a' out' → a = a' ∧ out = out'.
Proof.
  intros H H'. specialize (H []). specialize (H' []). simpl in *.
  rewrite H in H'. by injection H'.
Qed.

Lemma runs_bind {A B} (m : M A) (k : A → M B) a b out1 out2 :
  runs m a out1 → runs (k a) b out2 → runs (m ≫= k) b (out1 ++ out2).
Proof.
  intros Hm Hk errors. unfold mbind, M_bind. rewrite Hm, Hk.
  by rewrite app_assoc.
Qed.

Lemma emits_mono {A} (m : M A) (Q Q' : A → list pystr → Prop) :
  emits m Q → (∀ a out, Q a out → Q' a out) → emits m Q'.
Proof.
  intros (a & out & Em & HQa) HQ. exists a, out. split; [exact Em | auto].
Qed.

Lemma emits_ret {A} (a : A) (Q : A → list pystr → Prop) :
  Q a [] → emits (mret a) Q.
Proof.
  intros HQ. exists a, []. split; [| assumption].
  intros errors. unfold mret, M_ret. by rewrite app_nil_r.
Qed.

Lemma emits_lift {A} (r : result A) (a : A) (Q : A → list pystr → Prop) :
  r = Returns a → Q a [] → emits (lift r) Q.
Proof.
  intros -> HQ. exists a, []. split; [| assumption].
  intros errors. unfold lift. by rewrite app_nil_r.
Qed.

Lemma emits_err (message : pystr) (Q : unit → list pystr → Prop) :
  Q () [message] → emits (_err message) Q.
Proof. intros HQ. by exists (), [message]. Qed.

Lemma emits_bind {A B} (m : M A) (k : A → M B)
    (Q1 : A → list pystr → Prop) (Q : B → list pystr → Prop) :
  emits m Q1 →
  (∀ a out1, Q1 a out1 → emits (k a) (λ b out2, Q b (out1 ++ out2))) →
  emits (m ≫= k) Q.
Proof.
  intros (a & out1 & Em & H1) Hk.
  destruct (Hk a out1 H1) as (b & out2 & Ek & H2).
  exists b, (out1 ++ out2). split; [| assumption].
  intros errors. unfold mbind, M_bind. rewrite Em, Ek. by rewrite app_assoc.
Qed.

(** A primitive operation that returns appends nothing: the continuation is
    all there is. *)
Lemma emits_bind_lift {A B} (r : result A) (a : A) (k : A → M B)
    (Q : B → list pystr → Prop) :
  r = Returns a → emits (k a) Q → emits (lift r ≫= k) Q.
Proof.
  intros Hr Hk.
  apply (emits_bind _ _ (λ x out, x = a ∧ out = [])).
  - by apply (emits_lift _ a).
  - by intros ? ? [-> ->].
Qed.

(** After [_err(errors, message)] the continuation runs with one more
    message. *)
Lemma emits_err_then {B} (message : pystr) (k : unit → M B)
    (Q : B → list pystr → Prop) :
  emits (k ()) (λ b out, Q b (message :: out)) → emits (_err message ≫= k) Q.
Proof.
  intros Hk. apply (emits_bind _ _ (λ _ out, out = [message])).
  - by apply emits_err.
  - by intros [] ? ->.
Qed.

Lemma emits_when (c : bool) (body : M unit) (Q : unit → list pystr → Prop) :
  (c = true → emits body Q) → (c = false → Q () []) → emits (when c body) Q.
Proof. destruct c; simpl; [auto | intros _ H; apply emits_ret; auto]. Qed.

Lemma says_ret {A} (P : pystr → Prop) (a : A) : says P (mret a).
Proof. by apply emits_ret. Qed.

Lemma says_err (P : pystr → Prop) (message : pystr) :
  P message → says P (_err message).
Proof. intros HP. apply emits_err. by constructor. Qed.

Lemma says_bind {A B} (P : pystr → Prop) (m : M A) (k : A → M B) :
  says P m → (∀ a, says P (k a)) → says P (m ≫= k).
Proof.
  intros Hm Hk. eapply emits_bind; [exact Hm |].
  intros a out1 H1. eapply emits_mono; [apply Hk |].
  intros b out2 H2. by apply Forall_app.
Qed.

Lemma says_bind_lift {A B} (P : pystr → Prop) (r : result A) (a : A)
    (k : A → M B) :
  r = Returns a → says P (k a) → says P (lift r ≫= k).
Proof. apply emits_bind_lift. Qed.

Lemma says_when (P : pystr → Prop) (c : bool) (body : M unit) :
  (c = true → says P body) → says P (when c body).
Proof. intros H. apply emits_when; [exact H | by constructor]. Qed.

(** The loop rule: [Inv done acc out] holds after the elements [done] have
    been processed, with [acc] the carried variables and [out] the messages
    appended so far. *)
Lemma emits_for_acc {A S} (Inv : list A → S → list pystr → Prop)
    (l : list A) (acc : S) (body : A → S → M S) :
  Inv [] acc [] →
  (∀ done x rest acc out, l = done ++ x :: rest → Inv done acc out →
     emits (body x acc) (λ acc' out', Inv (done ++ [x]) acc' (out ++ out'))) →
  emits (for_acc l acc body) (λ acc' out, Inv l acc' out).
Proof.
  intros H0 Hstep.
  cut (∀ rest done acc out, l = done ++ rest → Inv done acc out →
         emits (for_acc rest acc body) (λ acc' out', Inv l acc' (out ++ out'))).
  { intros Hgen. apply (Hgen l [] acc []); [reflexivity | assumption]. }
  induction rest as [| x rest IH]; intros done acc0 out El HI; simpl.
  - apply emits_ret. rewrite app_nil_r in El |- *. by subst.
  - eapply emits_bind; [by eapply Hstep |].
    intros acc1 out1 H1. simpl in H1.
    eapply emits_mono.
    + apply (IH (done ++ [x])); [by rewrite <- app_assoc | exact H1].
    + intros acc2 out2 H2. simpl in *. by rewrite app_assoc.
Qed.

Lemma says_for_acc {A S} (P : pystr → Prop) (l : list A) (acc : S)
    (body : A → S → M S) :
  (∀ x acc, x ∈ l → says P (body x acc)) → says P (for_acc l acc body).
Proof.
  intros Hbody.
  eapply emits_mono.
  - apply (emits_for_acc (λ _ _ out, Forall P out)); [constructor |].
    intros done x rest acc0 out -> Hout.
    eapply emits_mono; [apply Hbody; set_solver |].
    intros; by apply Forall_app.
  - auto.
Qed.

Lemma says_for_each {A} (P : pystr → Prop) (l : list A) (body : A → M unit) :
  (∀ x, x ∈ l → says P (body x)) → says P (for_each l body).
Proof. intros H. apply says_for_acc. auto. Qed.

(** * Facts about strings and messages *)

Lemma str_eqb_eq (a b : pystr) : str_eqb a b = true ↔ a = b.
Proof.
  revert b. induction a as [| x a IH]; intros [| y b]; simpl; try done.
  rewrite andb_true_iff, N.eqb_eq, IH. split; [by intros [-> ->] | by intros [= -> ->]].
Qed.

Lemma startswith_app (p rest : pystr) : startswith (p ++ rest) p = true.
Proof.
  induction p as [| c p IH]; simpl; [reflexivity |].
  by rewrite N.eqb_refl, IH.
Qed.

Lemma startswith_refl (p : pystr) : startswith p p = true.
Proof. rewrite <- (app_nil_r p) at 1. apply startswith_app. Qed.

(** Two prefixes of one string are comparable. *)
Lemma startswith_comparable (m p q : pystr) :
  startswith m p = true → startswith m q = true →
  startswith p q || startswith q p = true.
Proof.
  revert p q. induction m as [| c m IH]; intros [| a p] [| b q]; simpl;
    try done.
  intros [Ha Hp]%andb_true_iff [Hb Hq]%andb_true_iff.
  apply N.eqb_eq in Ha, Hb. subst a b. rewrite N.eqb_refl. simpl.
  by apply IH.
Qed.

Lemma apart_sound (f1 f2 : list pystr) (m : pystr) :
  apart f1 f2 = true → has_prefix_in f1 m = true → has_prefix_in f2 m = false.
Proof.
  unfold apart, has_prefix_in. intros Hap H1.
  apply existsb_exists in H1 as (p & Hp & Hmp).
  apply not_true_is_false. intros (q & Hq & Hmq)%existsb_exists.
  rewrite forallb_forall in Hap. specialize (Hap p Hp).
  rewrite forallb_forall in Hap. specialize (Hap q Hq).
  by rewrite (startswith_comparable m p q) in Hap.
Qed.

Lemma startswith_app_l (m p rest : pystr) :
  startswith m p = true → startswith (m ++ rest) p = true.
Proof.
  revert m. induction p as [| c p IH]; intros [| b m]; simpl; try done.
  intros [-> Hp]%andb_true_iff. simpl. by apply IH.
Qed.

(** A message belongs to a family as soon as its beginning does. *)
Lemma has_prefix_in_app (family : list pystr) (m rest : pystr) :
  has_prefix_in family m = true → has_prefix_in family (m ++ rest) = true.
Proof.
  unfold has_prefix_in. intros (q & Hq & Hmq)%existsb_exists.
  apply existsb_exists. exists q. split; [done |].
  by apply startswith_app_l.
Qed.

(** ** Decimal numerals *)

Lemma string_of_uint_digits (d : Decimal.uint) :
  Forall (λ c, is_digit c = true) (lit (NilEmpty.string_of_uint d)).
Proof. induction d; simpl; constructor; done. Qed.

Lemma dec_digits (n : nat) : Forall (λ c, is_digit c = true) (dec n).
Proof.
  unfold dec, NilZero.string_of_uint.
  destruct (Nat.to_uint n) eqn:E; try apply string_of_uint_digits.
  by repeat constructor.
Qed.

Lemma dec_head (n : nat) :
  ∃ c r, dec n = c :: r ∧ is_digit c = true.
Proof.
  pose proof (dec_digits n) as H. unfold dec in *.
  destruct (Nat.to_uint n); simpl in *;
    eexists _, _; (split; [reflexivity | by inversion H]).
Qed.

Lemma lit_inj (x y : string) : lit x = lit y → x = y.
Proof.
  revert y. induction x as [| a x IH]; intros [| b y]; simpl; try done.
  intros [= Hab Hxy]. f_equal; [| by apply IH].
  rewrite <- (ascii_N_embedding a), <- (ascii_N_embedding b). by rewrite Hab.
Qed.

Lemma to_uint_nonnil (n : nat) : Nat.to_uint n ≠ Decimal.Nil.
Proof.
  rewrite <- (Unsigned.of_to n), Unsigned.to_of. apply unorm_nonnil.
Qed.

Lemma dec_inj (a b : nat) : dec a = dec b → a = b.
Proof.
  intros H%lit_inj. apply Unsigned.to_uint_inj.
  assert (Some (Nat.to_uint a) = Some (Nat.to_uint b)) as [=]; [| done].
  rewrite <- !NilZero.usu by apply to_uint_nonnil. by rewrite H.
Qed.

(** A numeral followed by a non-digit determines both. *)
Lemma digits_then_split (l1 l2 t1 t2 : pystr) (c1 c2 : N) :
  Forall (λ c, is_digit c = true) l1 → Forall (λ c, is_digit c = true) l2 →
  is_digit c1 = false → is_digit c2 = false →
  l1 ++ c1 :: t1 = l2 ++ c2 :: t2 → l1 = l2 ∧ c1 :: t1 = c2 :: t2.
Proof.
  intros H1. revert l2. induction H1 as [| a l1 Ha H1 IH];
    intros l2 H2 Hc1 Hc2; destruct H2 as [| b l2 Hb H2]; simpl.
  - done.
  - intros [= -> _]. congruence.
  - intros [= -> _]. congruence.
  - intros [= -> E]. destruct (IH l2 H2 Hc1 Hc2 E) as [-> ?]. done.
Qed.

Lemma dec_then_split (a b : nat) (t1 t2 : pystr) (c1 c2 : N) :
  is_digit c1 = false → is_digit c2 = false →
  dec a ++ c1 :: t1 = dec b ++ c2 :: t2 → a = b ∧ c1 :: t1 = c2 :: t2.
Proof.
  intros Hc1 Hc2 E.
  destruct (digits_then_split _ _ _ _ _ _ (dec_digits a) (dec_digits b) Hc1 Hc2 E)
    as [Hab ?].
  split; [by apply dec_inj | done].
Qed.

(** ** Whitespace *)

Lemma lstrip_all_space (s : pystr) :
  forallb isspace s = true → lstrip s = [].
Proof.
  induction s as [| c s IH]; simpl; [done |].
  intros [Hc Hs]%andb_true_iff. rewrite Hc. auto.
Qed.

(** A string of whitespace only strips to the empty string. *)
Lemma strip_blank (s : pystr) : forallb isspace s = true → strip s = [].
Proof. intros H. unfold strip. by rewrite (lstrip_all_space s H). Qed.

Lemma lstrip_nil_inv (s : pystr) : lstrip s = [] → forallb isspace s = true.
Proof.
  induction s as [| c s IH]; simpl; [done |].
  destruct (isspace c); [auto | done].
Qed.

(** Conversely, only whitespace strips to the empty string. *)
Lemma strip_nil_inv (s : pystr) : strip s = [] → forallb isspace s = true.
Proof.
  unfold strip. intros H.
  apply (f_equal reverse) in H. rewrite reverse_involutive in H.
  change (reverse []) with (@nil N) in H.
  apply lstrip_nil_inv in H.
  destruct (forallb isspace s) eqn:E; [done |].
  assert (lstrip s ≠ []) as Hne.
  { intros Hl%lstrip_nil_inv. congruence. }
  assert (∀ t, lstrip t ≠ [] → ∃ c r, lstrip t = c :: r ∧ isspace c = false)
    as Hhead.
  { induction t as [| c t IHt]; simpl; [done |].
    destruct (isspace c) eqn:Ec; [auto | eauto]. }
  destruct (Hhead s Hne) as (c & r & El & Ec).
  rewrite El, reverse_cons, forallb_app in H. simpl in H.
  rewrite Ec in H. by rewrite andb_false_r in H.
Qed.

Lemma emits_bind_returns {A B} (r : result A) (k : A → M B)
    (Q : B → list pystr → Prop) :
  (∃ a, r = Returns a) → (∀ a, r = Returns a → emits (k a) Q) →
  emits (lift r ≫= k) Q.
Proof.
  intros [a Hr] Hk. eapply emits_bind_lift; [exact Hr | by apply Hk].
Qed.

Lemma says_bind_returns {A B} (P : pystr → Prop) (r : result A) (k : A → M B) :
  (∃ a, r = Returns a) → (∀ a, r = Returns a → says P (k a)) →
  says P (lift r ≫= k).
Proof. apply emits_bind_returns. Qed.

Lemma says_lift_returns {A} (P : pystr → Prop) (r : result A) :
  (∃ a, r = Returns a) → says P (lift r).
Proof. intros [a Hr]. by apply (emits_lift _ a). Qed.

Lemma quiet_for_acc {A S} (Inv : S → Prop) (l : list A) (acc : S)
    (body : A → S → M S) :
  Inv acc → (∀ x acc, x ∈ l → Inv acc → quiet (body x acc) Inv) →
  quiet (for_acc l acc body) Inv.
Proof.
  intros H0 Hbody. unfold quiet.
  eapply emits_mono.
  - apply (emits_for_acc (λ _ acc out, out = [] ∧ Inv acc)); [done |].
    intros done x rest acc0 out -> [-> Hacc].
    eapply emits_mono; [apply (Hbody x acc0); [set_solver | done] |].
    by intros ? ? [-> ?].
  - auto.
Qed.

Lemma quiet_bind_says {A B} (P : pystr → Prop) (m : M A) (k : A → M B)
    (Q : A → Prop) :
  quiet m Q → (∀ a, Q a → says P (k a)) → says P (m ≫= k).
Proof.
  intros Hm Hk. eapply emits_bind; [exact Hm |].
  intros a out1 [-> Ha]. by apply Hk.
Qed.

(** Literals, numerals and comparisons stay folded under [simpl]. *)
#[global] Opaque lit dec.
#[global] Arguments Nat.leb : simpl never.

(** * Membership in a family *)

Lemma from_indexed (idx : nat) (rest : pystr) :
  from family_indexed (lit "projects[" ++ dec idx ++ rest).
Proof.
  destruct (dec_head idx) as (c & r & -> & Hc).
  assert (c ∈ digits) as Hin.
  { unfold is_digit in Hc. apply andb_true_iff in Hc as [H1 H2].
    apply N.leb_le in H1, H2. unfold digits.
    assert (c = 48 ∨ c = 49 ∨ c = 50 ∨ c = 51 ∨ c = 52 ∨ c = 53 ∨ c = 54
            ∨ c = 55 ∨ c = 56 ∨ c = 57)%N as Hc by lia.
    rewrite !elem_of_cons. tauto. }
  unfold from, has_prefix_in. apply existsb_exists.
  exists (lit "projects[" ++ [c]). split.
  - apply list_elem_of_In.
    by apply (list_elem_of_fmap_2 (λ c, lit "projects[" ++ [c])).
  - replace (lit "projects[" ++ (c :: r) ++ rest)
      with ((lit "projects[" ++ [c]) ++ r ++ rest).
    + apply startswith_app.
    + by rewrite <- app_assoc.
Qed.

Lemma from_app_r (f1 f2 : list pystr) (m : pystr) :
  from f2 m → from (f1 ++ f2) m.
Proof.
  unfold from, has_prefix_in. rewrite existsb_app. intros ->.
  apply orb_true_r.
Qed.

Lemma from_app_l (f1 f2 : list pystr) (m : pystr) :
  from f1 m → from (f1 ++ f2) m.
Proof. unfold from, has_prefix_in. rewrite existsb_app. by intros ->. Qed.

Lemma from_projects_indexed (m : pystr) :
  from family_indexed m → from family_projects m.
Proof. intros H. unfold family_projects. by do 2 apply from_app_r. Qed.

Lemma from_projects_duplicate (m : pystr) :
  from family_duplicate m → from family_projects m.
Proof.
  intros H. unfold family_projects. apply from_app_r. by apply from_app_l.
Qed.

Lemma says_mono {A} (P P' : pystr → Prop) (m : M A) :
  (∀ x, P x → P' x) → says P m → says P' m.
Proof.
  intros HP Hm. eapply emits_mono; [exact Hm |].
  intros ? out Hout. eapply Forall_impl; [exact Hout | exact HP].
Qed.

(** A message is not in the output of a block of another family. *)
Lemma not_in_output (f : list pystr) (out : list pystr) (m : pystr) :
  Forall (from f) out → has_prefix_in f m = false → m ∉ out.
Proof.
  intros Hout Hm Hin. rewrite Forall_forall in Hout.
  specialize (Hout m Hin). unfold from in Hout. congruence.
Qed.

Ltac in_family :=
  unfold from; cbv zeta; rewrite <- ?app_assoc;
  lazymatch goal with
  | |- has_prefix_in family_indexed (lit "projects[" ++ dec _ ++ _) = true =>
      apply from_indexed
  | |- has_prefix_in family_projects (lit "projects[" ++ dec _ ++ _) = true =>
      apply from_projects_indexed, from_indexed
  | |- has_prefix_in _ (?p ++ _) = true =>
      apply (has_prefix_in_app _ p); vm_compute; reflexivity
  | |- has_prefix_in _ _ = true => vm_compute; reflexivity
  end.

(** Case analysis on the runtime type of the operands until a primitive
    computation returns. *)
Ltac returns :=
  unfold and_then, or_else, all_str, localized_or_str, _is_localized,
    py_get, py_getitem, py_in, py_iter, py_len, py_strip, py_lower, py_format,
    set_in, set_add, has_key, isinstance_str_or_dict in *;
  simpl in *; simplify_eq/=;
  repeat (case_match; simplify_eq/=);
  solve [done | eauto].

Ltac emits_step :=
  lazymatch goal with
  | |- emits (mret _) _ => apply emits_ret
  | |- emits (_err _) _ => apply emits_err
  | |- emits (when _ _) _ => apply emits_when; intros ?
  | |- emits (lift _ ≫= _) _ =>
      apply emits_bind_returns; [returns | intros ? ?]
  | |- emits (if ?c then _ else _) _ => destruct c eqn:?
  end.

Ltac says_step :=
  lazymatch goal with
  | |- says _ (mret _) => apply says_ret
  | |- says _ (_err _) => apply says_err; try in_family
  | |- says _ (when _ _) => apply says_when; intros ?
  | |- says _ (for_each _ _) => apply says_for_each; intros ? ?
  | |- says _ (lift _) => apply says_lift_returns; returns
  | |- says _ (lift _ ≫= _) =>
      apply says_bind_returns; [returns | intros ? ?]
  | |- says _ (for_acc _ _ _ ≫= _) => fail
  | |- says _ (_ ≫= _) => apply says_bind; [| intros ?]
  | |- says _ (if ?c then _ else _) => destruct c eqn:?
  | |- says _ (let '(_, _) := ?x in _) => destruct x
  | |- says _ (match ?x with _ => _ end) => destruct x eqn:?
  end.

(** A message that starts like those of another block is not in the output
    of this one. *)
Ltac elsewhere :=
  lazymatch goal with
  | F : Forall (from ?f) ?out, H : ?m ∈ ?out |- _ =>
      exfalso; revert H; apply (not_in_output f out m F);
      vm_compute; reflexivity
  end.

(** * What each block says *)

Section Properties.
Variable lower : pystr → pystr.
Variable decode : pystr → JSONDecodeError + value.
Implicit Types (d : gmap (list N) value).

Lemma says_required d :
  says (from family_required) (check_required_keys (JObj d)).
Proof.
  unfold check_required_keys. repeat says_step. unfold from.
  repeat match goal with H : _ ∈ _ :: _ |- _ => apply elem_of_cons in H as [-> | H] end;
    first [by vm_compute | by apply elem_of_nil in H].
Qed.

Lemma says_i18n d : says (from family_i18n) (check_i18n (JObj d)).
Proof. unfold check_i18n. repeat says_step. Qed.

Lemma says_contexts d :
  says (from family_contexts) (check_contexts (JObj d)).
Proof. unfold check_contexts. repeat says_step. Qed.

Lemma says_reading d : says (from family_reading) (check_reading (JObj d)).
Proof. unfold check_reading. repeat says_step. Qed.

Lemma says_phd_extract d :
  says (from family_phd_extract) (check_phd_extract (JObj d)).
Proof. unfold check_phd_extract. repeat says_step. Qed.

Lemma says_contained idx d :
  says (from family_indexed) (check_contained idx (JObj d)).
Proof. unfold check_contained. repeat says_step. Qed.

Lemma says_spec idx d :
  says (from family_indexed) (check_spec idx (JObj d)).
Proof. unfold check_spec. repeat says_step. Qed.

Lemma says_id idx d seen_ids :
  says (from family_projects) (check_id idx (JObj d) seen_ids).
Proof. unfold check_id. repeat says_step. Qed.

Lemma says_project entry seen_ids :
  says (from family_projects) (check_project entry seen_ids).
Proof.
  unfold check_project. destruct entry as [idx proj].
  says_step; [repeat says_step |].
  destruct proj; try discriminate.
  repeat says_step.
  - apply says_id.
  - eapply says_mono; [apply from_projects_indexed | apply says_contained].
  - eapply says_mono; [apply from_projects_indexed | apply says_spec].
Qed.

Lemma says_projects d :
  says (from family_projects) (check_projects (JObj d)).
Proof.
  unfold check_projects. repeat says_step.
  apply says_bind; [| intros; apply says_ret].
  apply says_for_acc. intros. apply says_project.
Qed.

(** ** The [proof] block *)

Lemma quiet_collect_item item acc :
  all_dicts acc → quiet (collect_item lower item acc) all_dicts.
Proof.
  intros Hacc. unfold collect_item, quiet.
  emits_step; [by apply emits_ret |].
  destruct item; try discriminate.
  repeat emits_step; try done.
  split; [done |]. apply Forall_app. split; [done |]. by repeat constructor.
Qed.

Lemma quiet_collect_group group acc :
  all_dicts acc → quiet (collect_group lower group acc) all_dicts.
Proof.
  intros Hacc. unfold collect_group, quiet.
  emits_step; [by apply emits_ret |].
  destruct group; try discriminate.
  repeat emits_step; try done.
  apply quiet_for_acc; [done |]. intros. by apply quiet_collect_item.
Qed.

Lemma says_domomea_item idx item :
  isinstance_dict item = true →
  says (from family_proof) (check_domomea_item (idx, item)).
Proof.
  intros Hd. destruct item; try discriminate.
  unfold check_domomea_item. repeat says_step.
Qed.

Lemma elem_of_enumerate {A} (l : list A) (i : nat) (x : A) :
  (i, x) ∈ enumerate l → x ∈ l.
Proof.
  unfold enumerate. intros H. apply list_elem_of_lookup in H as [j Hj].
  apply lookup_zip_with_Some in Hj as (a & b & [= -> ->] & _ & Hb).
  by eapply list_elem_of_lookup_2.
Qed.

Lemma says_proof d : says (from family_proof) (check_proof lower (JObj d)).
Proof.
  unfold check_proof. repeat says_step.
  eapply quiet_bind_says.
  - apply (quiet_for_acc all_dicts); [constructor |].
    intros. by apply quiet_collect_group.
  - intros items Hitems. repeat says_step.
    destruct x as [idx item]. apply says_domomea_item.
    unfold all_dicts in Hitems. rewrite Forall_forall in Hitems.
    apply Hitems. by eapply elem_of_enumerate.
Qed.

(** ** The [bmi] block *)

Lemma is_bmi_returns (p : value) : ∃ b, is_bmi p = Returns b.
Proof. unfold is_bmi. returns. Qed.

(** [next] returns its default or a [dict] whose id is ["bmi"]. *)
Lemma next_matching_bmi (ps : list value) :
  ∃ v, next_matching is_bmi ps JNull = Returns v
       ∧ (v = JNull ∨ (isinstance_dict v = true ∧ v ∈ ps)).
Proof.
  induction ps as [| p ps (v & Hv & IH)]; simpl.
  - exists JNull. auto.
  - destruct (is_bmi_returns p) as [b Hb]. rewrite Hb. simpl.
    destruct b.
    + exists p. split; [done |]. right. split; [| by left].
      unfold is_bmi in Hb. destruct p; try discriminate. done.
    + exists v. split; [done |]. destruct IH as [-> | [? ?]]; [auto |].
      right. split; [done | by right].
Qed.

Lemma says_bmi projects : says (from family_bmi) (check_bmi projects).
Proof.
  unfold check_bmi. repeat says_step.
  destruct (next_matching_bmi a) as (v & Hv & Hdict).
  apply says_bind_returns; [eauto |]. intros bmi Hbmi.
  assert (bmi = v) as -> by congruence.
  says_step; [repeat says_step |].
  destruct Hdict as [-> | [Hd _]]; [done |].
  destruct v; try discriminate.
  repeat says_step.
Qed.

(** * The structure of [validate]

    On an object, [validate] runs its eight blocks one after the other; each
    block returns, and appends messages of its own family only, whatever the
    blocks before it reported. *)

Lemma check_projects_result d :
  ∀ r out, runs (check_projects (JObj d)) r out → r.1 = projects_of d.
Proof.
  intros r out Hr. specialize (Hr []).
  unfold check_projects, mbind, M_bind, lift, py_get in Hr. simpl in Hr.
  fold (projects_of d) in Hr.
  destruct (negb (is_none (projects_of d))
            && negb (isinstance_list (projects_of d))).
  { unfold _err in Hr. simpl in Hr. by injection Hr as <- _. }
  destruct (isinstance_list (projects_of d)).
  - destruct (py_iter (projects_of d)); [| done]. simpl in Hr.
    destruct (for_acc _ _ _ _) as [[? ?] |]; [| done].
    by injection Hr as <- _.
  - by injection Hr as <- _.
Qed.

Lemma validate_blocks d :
  ∃ o, blocks_run lower d o ∧ in_families o
       ∧ validate lower (JObj d) = Returns (all_outputs o).
Proof.
  destruct (says_required d) as ([] & o1 & R1 & F1).
  destruct (says_i18n d) as ([] & o2 & R2 & F2).
  destruct (says_projects d) as ([pr seen_ids] & o3 & R3 & F3).
  destruct (says_contexts d) as ([] & o4 & R4 & F4).
  destruct (says_reading d) as ([] & o5 & R5 & F5).
  destruct (says_phd_extract d) as ([] & o6 & R6 & F6).
  destruct (says_proof d) as ([] & o7 & R7 & F7).
  destruct (says_bmi (projects_of d)) as ([] & o8 & R8 & F8).
  pose proof (check_projects_result d _ _ R3) as Hpr. simpl in Hpr. subst pr.
  exists (Build_outputs o1 o2 o3 o4 o5 o6 o7 o8).
  split; [| split].
  - unfold blocks_run; simpl. eauto 12.
  - unfold in_families; simpl. auto 12.
  - assert (runs (checks lower (JObj d)) ()
              (o1 ++ o2 ++ o3 ++ o4 ++ o5 ++ o6 ++ o7 ++ o8)) as Hrun.
    { unfold checks.
      repeat (eapply runs_bind; [eassumption |]); simpl.
      repeat (eapply runs_bind; [eassumption |]). exact R8. }
    unfold validate. simpl. unfold mbind, result_bind. rewrite (Hrun []).
    reflexivity.
Qed.

(** * Properties of the validator *)

(** C1. For every value that is not an object, [validate] returns the
    one-element list ["Root JSON value must be an object"] and nothing else:
    no other check runs. *)
Theorem validate_root_not_object (profile : value) :
  isinstance_dict profile = false →
  validate lower profile = Returns [root_message].
Proof. intros H. unfold validate. by rewrite H. Qed.

(** C6, as the code has it.  [_is_localized] returns, without raising, true
    exactly for an object that has the key ["en"] or the key ["it"], whatever
    these keys map to, and false for every other value, a string included.
    Strings are accepted by the separate [isinstance(v, str)] of the call
    sites: [_is_localized(v) or isinstance(v, str)] is true exactly for a
    string or such an object. *)
Theorem is_localized_spec (v : value) :
  _is_localized v = Returns (localized_object v)
  ∧ localized_or_str v = Returns (localized_object v || isinstance_str v).
Proof.
  unfold localized_or_str, _is_localized, localized_object.
  destruct v as [| | | | | | d]; simpl; try done.
  destruct (has_key d (lit "en")); simpl; [done |].
  destruct (has_key d (lit "it")); done.
Qed.

(** ** Where a message can come from *)

Lemma elem_of_all_outputs (o : outputs) (m : pystr) :
  m ∈ all_outputs o ↔
  m ∈ out_required o ∨ m ∈ out_i18n o ∨ m ∈ out_projects o
  ∨ m ∈ out_contexts o ∨ m ∈ out_reading o ∨ m ∈ out_phd_extract o
  ∨ m ∈ out_proof o ∨ m ∈ out_bmi o.
Proof. unfold all_outputs. by rewrite !elem_of_app. Qed.

(** A message of a family apart from a block's family is not in the block's
    output. *)
Lemma foreign (target f : list pystr) (out : list pystr) (m : pystr) :
  apart target f = true → from target m → Forall (from f) out → m ∉ out.
Proof.
  intros Hap Hm Hout. apply (not_in_output f); [done |].
  by apply (apart_sound target).
Qed.

(** ** The [bmi] project is required (C2) *)

Lemma is_bmi_spec (p : value) : is_bmi p = Returns (has_id_bmi p).
Proof.
  unfold is_bmi, has_id_bmi. destruct p as [| | | | | | e]; try done.
  simpl. destruct (e !! lit "id") as [[]|]; done.
Qed.

Lemma next_matching_none (ps : list value) :
  Forall (λ p, has_id_bmi p = false) ps →
  next_matching is_bmi ps JNull = Returns JNull.
Proof.
  induction 1 as [| p ps Hp _ IH]; simpl; [done |].
  by rewrite is_bmi_spec, Hp.
Qed.

Lemma next_matching_first (before after : list value) (p : value) :
  Forall (λ p, has_id_bmi p = false) before → has_id_bmi p = true →
  next_matching is_bmi (before ++ p :: after) JNull = Returns p.
Proof.
  intros Hb Hp. induction Hb as [| q before Hq _ IH]; simpl.
  - by rewrite is_bmi_spec, Hp.
  - by rewrite is_bmi_spec, Hq.
Qed.

Lemma runs_bmi_absent (ps : list value) :
  Forall (λ p, has_id_bmi p = false) ps →
  runs (check_bmi (JArr ps)) () [bmi_required].
Proof.
  intros Hps errors. unfold check_bmi, when, mbind, M_bind, lift. simpl.
  by rewrite (next_matching_none ps Hps).
Qed.

Lemma projects_of_lookup d v :
  d !! lit "projects" = Some v → projects_of d = v.
Proof. unfold projects_of. by intros ->. Qed.

Lemma says_emits {A} (P : pystr → Prop) (m : M A) :
  says P m → emits m (λ _ out, Forall P out).
Proof. done. Qed.

(** Either no entry has the id ["bmi"], or there is a first one. *)
Lemma first_bmi (ps : list value) :
  Forall (λ p, has_id_bmi p = false) ps
  ∨ ∃ before p after,
      ps = before ++ p :: after
      ∧ Forall (λ p, has_id_bmi p = false) before ∧ has_id_bmi p = true.
Proof.
  induction ps as [| q ps IH]; [left; constructor |].
  destruct (has_id_bmi q) eqn:Hq.
  - right. exists [], q, ps. split; [done |]. split; [constructor | done].
  - destruct IH as [IH | (before & p & after & -> & Hb & Hp)].
    + left. by constructor.
    + right. exists (q :: before), p, after.
      split; [done |]. split; [by constructor | done].
Qed.

(** The last block asks for the [bmi] project exactly when it looks at an
    array and finds no entry of that id in it. *)
Lemma bmi_required_spec (projects : value) :
  emits (check_bmi projects)
    (λ _ out,
       bmi_required ∈ out
       ↔ ∃ ps, projects = JArr ps ∧ Forall (λ p, has_id_bmi p = false) ps).
Proof.
  destruct projects as [| | | | | ps |];
    try (apply emits_ret;
         split; [by intros ?%elem_of_nil | by intros (? & [=] & _)]).
  destruct (first_bmi ps) as [Hps | (before & p & after & -> & Hb & Hp)].
  - exists (), [bmi_required]. split; [by apply runs_bmi_absent |].
    split; [| intros _; by left]. intros _. by exists ps.
  - unfold check_bmi. cbn [isinstance_list when].
    eapply emits_bind_lift; [reflexivity |].
    eapply emits_bind_lift; [by apply next_matching_first |].
    destruct p as [| | | | | | b]; try discriminate. cbn [is_none].
    eapply emits_mono.
    + apply says_emits with (P := from [lit "projects[id=bmi]"]).
      repeat says_step.
    + intros ? out F. cbv beta in F. split.
      * intros Hin. elsewhere.
      * intros (? & [= <-] & Hall). apply Forall_app in Hall as [_ Hall].
        apply Forall_cons in Hall as [Hall _]. congruence.
Qed.

(** C2, as the code has it.  [validate] reports that the [bmi] project is
    required exactly when ["projects"] is an array with no object entry of id
    ["bmi"], whatever else the document holds: the requirement is reported
    for every such array, and it is not reported when ["projects"] is
    absent, [None] or not an array. *)
Theorem validate_requires_bmi (d : gmap (list N) value) :
  ∃ errors,
    validate lower (JObj d) = Returns errors
    ∧ (bmi_required ∈ errors
       ↔ ∃ ps, d !! lit "projects" = Some (JArr ps)
               ∧ Forall (λ p, has_id_bmi p = false) ps).
Proof.
  destruct (validate_blocks d) as (o & Hrun & Hfam & Hv).
  exists (all_outputs o). split; [done |].
  destruct Hrun as (_ & _ & _ & _ & _ & _ & _ & R8).
  destruct Hfam as (F1 & F2 & F3 & F4 & F5 & F6 & F7 & F8).
  destruct (bmi_required_spec (projects_of d)) as ([] & out & H8 & Hiff).
  destruct (runs_det _ _ _ _ _ R8 H8) as [_ E].
  rewrite elem_of_all_outputs, E, Hiff. split.
  - intros Hin.
    repeat match goal with H : _ ∨ _ |- _ => destruct H as [H | H] end;
      try elsewhere.
    destruct Hin as (ps & Hp & Hall). exists ps. split; [| done].
    unfold projects_of in Hp.
    destruct (d !! lit "projects") as [v |]; simpl in Hp; [by subst |].
    discriminate Hp.
  - intros (ps & Hd & Hall). do 7 right. exists ps.
    split; [by apply projects_of_lookup | done].
Qed.

(** ** The proof checks are skipped without [proof.categories] (C8) *)

Lemma runs_proof_skipped d :
  proof_unusable d → runs (check_proof lower (JObj d)) () [].
Proof.
  intros Hd errors. rewrite app_nil_r.
  unfold check_proof, mbind, M_bind, lift, py_get. simpl.
  destruct Hd as [-> | [(v & -> & Hv) | (p & -> & Hp)]]; simpl.
  - done.
  - by rewrite Hv.
  - unfold mbind, result_bind. simpl.
    destruct (p !! lit "categories") as [[]|] eqn:E; simpl; try done.
    by destruct (Hp l).
Qed.

Lemma no_proof_message (f : list pystr) (out : list pystr) :
  apart f family_proof = true → Forall (from f) out →
  Forall (λ m, proof_message m = false) out.
Proof.
  intros Hap Hout. eapply Forall_impl; [exact Hout |].
  intros m Hm. by apply (apart_sound f).
Qed.

(** C8. If ["proof"] is absent, or is not an object, or is an object whose
    ["categories"] is not an array, the [proof] block reports nothing, the
    missing-item error included, and no message of [validate] is a proof
    message. *)
Theorem validate_skips_proof (d : gmap (list N) value) :
  proof_unusable d →
  ∃ errors,
    validate lower (JObj d) = Returns errors
    ∧ runs (check_proof lower (JObj d)) () []
    ∧ Forall (λ m, proof_message m = false) errors.
Proof.
  intros Hd.
  destruct (validate_blocks d) as (o & Hrun & Hfam & Hv).
  exists (all_outputs o). split; [done |].
  pose proof (runs_proof_skipped d Hd) as Hskip. split; [done |].
  destruct Hrun as (_ & _ & _ & _ & _ & _ & Hproof & _).
  destruct (runs_det _ _ _ _ _ Hproof Hskip) as [_ E].
  destruct Hfam as (F1 & F2 & F3 & F4 & F5 & F6 & _ & F8).
  unfold all_outputs. rewrite E. rewrite !Forall_app.
  repeat split; try (by constructor);
    (eapply no_proof_message; [| eassumption]); vm_compute; reflexivity.
Qed.

(** ** A required [phd_extract] key mapped to [null] (C10) *)

Lemma phd_not_strings_inj (x y : pystr) :
  phd_not_strings x = phd_not_strings y → x = y.
Proof.
  unfold phd_not_strings. intros H%app_inv_head. by apply app_inv_tail in H.
Qed.

Lemma phd_missing_not_strings (x y : pystr) :
  phd_missing_key x ≠ phd_not_strings y.
Proof.
  unfold phd_missing_key, phd_not_strings. intros H.
  apply (f_equal (take 12)) in H. vm_compute in H. discriminate H.
Qed.

Lemma phd_source_not_strings (key : pystr) :
  key ∈ required_arrays →
  lit "phd_extract.source must be an object" ≠ phd_not_strings key.
Proof.
  unfold required_arrays. intros Hk H.
  repeat (apply elem_of_cons in Hk as [-> | Hk];
          [vm_compute in H; discriminate H |]).
  by apply elem_of_nil in Hk.
Qed.

(** One turn of the loop over [required_arrays], when [key] is absent from
    [phd_extract] or mapped to [None]. *)
Lemma phd_key_turn (pe : gmap (list N) value) (key x : pystr) :
  (pe !! key = None ∨ pe !! key = Some JNull) →
  emits
    (value ← lift (py_get (JObj pe) x);
     if is_none value then _err (phd_missing_key x)
     else
       bad ← lift (or_else (negb (isinstance_list value))
         (ok ← all_str value; mret (negb ok)));
       when bad (_err (phd_not_strings x)))
    (λ _ out, (x = key → out = [phd_missing_key key])
              ∧ phd_not_strings key ∉ out).
Proof.
  intros Hk. destruct (decide (x = key)) as [-> | Hne].
  - eapply emits_bind_lift.
    { unfold py_get. reflexivity. }
    assert (is_none (default JNull (pe !! key)) = true) as ->.
    { by destruct Hk as [-> | ->]. }
    apply emits_err. split; [done |].
    intros [Hin | Hin]%elem_of_cons; [| by apply elem_of_nil in Hin].
    by apply eq_sym, phd_missing_not_strings in Hin.
  - repeat emits_step; (split; [done |]).
    + intros [Hin | Hin]%elem_of_cons; [| by apply elem_of_nil in Hin].
      by apply eq_sym, phd_missing_not_strings in Hin.
    + intros [Hin | Hin]%elem_of_cons; [| by apply elem_of_nil in Hin].
      by apply phd_not_strings_inj in Hin.
    + apply not_elem_of_nil.
Qed.

Lemma phd_null_key d (pe : gmap (list N) value) (key : pystr) :
  d !! lit "phd_extract" = Some (JObj pe) →
  key ∈ required_arrays →
  (pe !! key = None ∨ pe !! key = Some JNull) →
  emits (check_phd_extract (JObj d))
    (λ _ out, phd_missing_key key ∈ out ∧ phd_not_strings key ∉ out).
Proof.
  intros Hd Hkey Hk. unfold check_phd_extract.
  eapply emits_bind_lift.
  { unfold py_get. rewrite Hd. reflexivity. }
  cbn [default is_none isinstance_dict negb].
  apply emits_bind_returns; [unfold py_get; eauto |]. intros source Hsource.
  eapply (emits_bind _ _ (λ _ out, phd_not_strings key ∉ out)).
  { apply emits_when; intros _.
    - apply emits_err.
      intros [H | H]%elem_of_cons; [| by apply elem_of_nil in H].
      by apply eq_sym, phd_source_not_strings in H.
    - apply not_elem_of_nil. }
  intros _ out1 Hout1.
  eapply emits_mono.
  - apply (emits_for_acc (λ done _ out,
             (phd_not_strings key ∉ out)
             ∧ (key ∈ done → phd_missing_key key ∈ out))).
    + split; [apply not_elem_of_nil | by intros ?%elem_of_nil].
    + intros done x rest [] out _ [Hno Hyes].
      eapply emits_mono; [apply (phd_key_turn pe key x Hk) |].
      intros _ out' [Hsame Hno']. split.
      * by intros [? | ?]%elem_of_app.
      * intros [Hin | ->%list_elem_of_singleton]%elem_of_app.
        -- apply elem_of_app. auto.
        -- rewrite (Hsame eq_refl). apply elem_of_app. right. by left.
  - intros _ out [Hno Hyes]. split.
    + apply elem_of_app. right. by apply Hyes.
    + by intros [? | ?]%elem_of_app.
Qed.

(** C10. A required array key of ["phd_extract"] that is mapped to [null] is
    reported as a missing required key, exactly as an absent key is, and not
    as a value that is not an array of strings. *)
Theorem validate_phd_null_key (d pe : gmap (list N) value) (key : pystr) :
  d !! lit "phd_extract" = Some (JObj pe) →
  key ∈ required_arrays →
  pe !! key = None ∨ pe !! key = Some JNull →
  ∃ errors,
    validate lower (JObj d) = Returns errors
    ∧ phd_missing_key key ∈ errors
    ∧ phd_not_strings key ∉ errors.
Proof.
  intros Hd Hkey Hk.
  destruct (validate_blocks d) as (o & Hrun & Hfam & Hv).
  exists (all_outputs o). split; [done |].
  destruct (phd_null_key d pe key Hd Hkey Hk) as ([] & out & Hout & Hyes & Hno).
  destruct Hrun as (_ & _ & _ & _ & _ & Hphd & _).
  destruct (runs_det _ _ _ _ _ Hphd Hout) as [_ E].
  rewrite !elem_of_all_outputs, E. split; [by do 5 right; left |].
  assert (from family_phd_extract (phd_not_strings key)) as Hfrom.
  { unfold phd_not_strings. in_family. }
  destruct Hfam as (F1 & F2 & F3 & F4 & F5 & _ & F7 & F8).
  intros [H | [H | [H | [H | [H | [H | [H | H]]]]]]]; try done;
    revert H; (eapply (foreign family_phd_extract); [| exact Hfrom | eassumption]);
    vm_compute; reflexivity.
Qed.

(** ** The bullet-count bounds (C4) *)

Lemma all_str_list (bs : list value) :
  all_str (JArr bs) = Returns (forallb isinstance_str bs).
Proof. reflexivity. Qed.





(** *** The DoMoMEA items, as [validate] collects them *)

Lemma silent_runs {A} (m : M A) (a : A) : silent m a → runs m a [].
Proof. intros H errors. by rewrite app_nil_r. Qed.

Lemma silent_collect_item (item : value) (acc : list value) :
  silent (collect_item lower item acc) (acc ++ List.filter (is_domomea lower) [item]).
Proof.
  intros errors. unfold collect_item, is_domomea, label_en.
  destruct item as [| | | | | | it]; simpl; try (by rewrite app_nil_r).
  unfold mbind, M_bind, lift, py_get. simpl.
  destruct (default JNull (it !! lit "label")) as [| | | | s | | l]; simpl;
    try (by rewrite app_nil_r).
  - unfold mbind, result_bind; simpl.
    destruct (str_contains (lit "domomea") (lower s)); simpl;
      [done | by rewrite app_nil_r].
  - destruct (default JNull (l !! lit "en")) as [| | | | s | |]; simpl;
      try (by rewrite app_nil_r).
    unfold mbind, result_bind; simpl.
    destruct (str_contains (lit "domomea") (lower s)); simpl;
      [done | by rewrite app_nil_r].
Qed.

Lemma silent_collect_items (xs acc : list value) :
  silent (for_acc xs acc (collect_item lower))
    (acc ++ List.filter (is_domomea lower) xs).
Proof.
  revert acc. induction xs as [| x xs IH]; intros acc errors; simpl.
  - by rewrite app_nil_r.
  - unfold mbind, M_bind. rewrite silent_collect_item, IH.
    rewrite <- app_assoc. simpl. by destruct (is_domomea lower x).
Qed.

Lemma silent_collect_group (group : value) (acc : list value) :
  silent (collect_group lower group acc)
    (acc ++ List.filter (is_domomea lower) (items_of group)).
Proof.
  intros errors. unfold collect_group, items_of.
  destruct group as [| | | | | | g]; simpl; try (by rewrite app_nil_r).
  unfold mbind, M_bind, lift, py_get. simpl.
  destruct (g !! lit "items") as [[| | | | | xs |]|]; simpl;
    try (by rewrite app_nil_r).
  apply silent_collect_items.
Qed.

Lemma silent_collect_groups (groups acc : list value) :
  silent (for_acc groups acc (collect_group lower))
    (acc ++ domomea_items lower groups).
Proof.
  unfold domomea_items.
  revert acc. induction groups as [| g groups IH]; intros acc errors; simpl.
  - by rewrite app_nil_r.
  - unfold mbind, M_bind. rewrite silent_collect_group, IH.
    by rewrite <- app_assoc, List.filter_app.
Qed.

Lemma domomea_items_dicts (groups : list value) (x : value) :
  x ∈ domomea_items lower groups → isinstance_dict x = true.
Proof.
  unfold domomea_items. intros H%list_elem_of_In%List.filter_In.
  destruct H as [_ H]. unfold is_domomea in H.
  by apply andb_true_iff in H as [? _].
Qed.

Lemma elem_of_enumerate_lookup {A} (l : list A) (i : nat) (x : A) :
  (i, x) ∈ enumerate l → l !! i = Some x.
Proof.
  unfold enumerate. intros H. apply list_elem_of_lookup in H as [j Hj].
  apply lookup_zip_with_Some in Hj as (a & b & [= -> ->] & Ha & Hb).
  apply lookup_seq in Ha as [-> _]. done.
Qed.



(** ** Project ids (C3, C9) *)

Lemma is_duplicate_message (pid : pystr) :
  is_duplicate (duplicate_message pid) = true.
Proof. unfold is_duplicate, duplicate_message. in_family. Qed.

Lemma filter_foreign (f : list pystr) (out : list pystr) :
  apart f family_duplicate = true → Forall (from f) out →
  List.filter is_duplicate out = [].
Proof.
  intros Hap. induction 1 as [| m out Hm _ IH]; simpl; [done |].
  unfold is_duplicate at 1. by rewrite (apart_sound f _ m Hap Hm).
Qed.

Lemma id_message_not_duplicate (idx : nat) :
  is_duplicate (id_message idx) = false.
Proof.
  apply (apart_sound family_indexed); [vm_compute; reflexivity |].
  apply from_indexed.
Qed.

(** One id check: what it appends and what it leaves in [seen_ids]. *)
Lemma check_id_spec (idx : nat) (e : gmap (list N) value)
    (seen_ids : gset pystr) :
  emits (check_id idx (JObj e) seen_ids)
    (λ seen' out,
       match registered_id (JObj e) with
       | Some pid =>
           if bool_decide (pid ∈ seen_ids)
           then seen' = seen_ids ∧ out = [duplicate_message pid]
           else seen' = {[ pid ]} ∪ seen_ids ∧ out = []
       | None => seen' = seen_ids ∧ out = [id_message idx]
       end).
Proof.
  unfold check_id, registered_id.
  eapply emits_bind_lift; [reflexivity |].
  destruct (e !! lit "id") as [[| | | | s | |]|]; simpl;
    try (eapply emits_bind_lift; [reflexivity |]; simpl;
         apply emits_err_then; by apply emits_ret).
  eapply emits_bind_lift; [reflexivity |]. simpl.
  destruct (truthy (strip s)); simpl.
  - eapply emits_bind_lift; [reflexivity |].
    destruct (bool_decide (s ∈ seen_ids)) eqn:Hin.
    + eapply emits_bind_lift; [reflexivity |].
      apply emits_err_then. by apply emits_ret.
    + by eapply emits_lift.
  - apply emits_err_then. by apply emits_ret.
Qed.

(** One turn of the loop over [enumerate(projects)]. *)
Lemma check_project_spec (idx : nat) (p : value) (seen_ids : gset pystr) :
  emits (check_project (idx, p) seen_ids)
    (λ seen' out,
       seen' = match registered_id p with
               | Some pid => {[ pid ]} ∪ seen_ids
               | None => seen_ids
               end
       ∧ List.filter is_duplicate out
         = match registered_id p with
           | Some pid =>
               if bool_decide (pid ∈ seen_ids)
               then [duplicate_message pid] else []
           | None => []
           end
       ∧ (isinstance_dict p = true → registered_id p = None →
          id_message idx ∈ out)).
Proof.
  unfold check_project.
  destruct p as [| | | | | | e];
    try (simpl; apply emits_err_then, emits_ret; split; [done |];
         split; [| done];
         simpl; unfold is_duplicate;
         rewrite (apart_sound family_indexed); [done | by vm_compute |];
         apply from_indexed).
  cbn [isinstance_dict negb].
  eapply emits_bind; [apply check_id_spec |].
  intros seen1 out1 H1.
  eapply emits_bind; [apply says_contained |]. intros [] out2 H2.
  eapply emits_bind; [apply says_spec |]. intros [] out3 H3.
  apply emits_ret. rewrite app_nil_r, List.filter_app.
  assert (List.filter is_duplicate (out2 ++ out3) = []) as ->.
  { rewrite List.filter_app.
    rewrite !(filter_foreign family_indexed); [done | by vm_compute | done
                                                | by vm_compute | done]. }
  rewrite app_nil_r.
  destruct (registered_id (JObj e)) as [pid |].
  - destruct (bool_decide (pid ∈ seen_ids)) eqn:Hin; destruct H1 as [-> ->].
    + split; [| split; [| done]].
      * apply bool_decide_eq_true in Hin. symmetry.
        by apply subseteq_union_1_L, singleton_subseteq_l.
      * simpl. by rewrite is_duplicate_message.
    + done.
  - destruct H1 as [-> ->]. split; [done |]. split.
    + simpl. by rewrite id_message_not_duplicate.
    + intros _ _. apply elem_of_app. left. by left.
Qed.

Lemma enumerate_split {A} (l : list A) done (i : nat) (x : A) rest :
  enumerate l = done ++ (i, x) :: rest →
  i = length done ∧ take i l = done.*2.
Proof.
  unfold enumerate. intros H.
  assert ((zip (seq 0 (length l)) l).*1 = seq 0 (length l)) as H1.
  { apply fst_zip. by rewrite length_seq. }
  assert ((zip (seq 0 (length l)) l).*2 = l) as H2.
  { apply snd_zip. by rewrite length_seq. }
  rewrite H, fmap_app, fmap_cons in H1. rewrite H, fmap_app, fmap_cons in H2.
  simpl in H1, H2.
  assert (i = length done) as ->.
  { assert (seq 0 (length l) !! length done = Some i) as Hi.
    { rewrite <- H1. rewrite lookup_app_r by (by rewrite length_fmap).
      by rewrite length_fmap, Nat.sub_diag. }
    apply lookup_seq in Hi as [-> _]. done. }
  split; [done |]. rewrite <- H2.
  rewrite take_app_length'; [done | by rewrite length_fmap].
Qed.

#[local] Opaque registered_id.

(** The loop over [enumerate(projects)]: the ids it leaves in [seen_ids], the
    duplicate messages it appends, and the message for an object without a
    registered id. *)
Lemma projects_loop_spec (ps : list value) :
  emits (for_acc (enumerate ps) ∅ check_project)
    (λ seen_ids out,
       seen_ids = list_to_set (omap registered_id ps)
       ∧ List.filter is_duplicate out = duplicate_message <$> repeated_ids ps
       ∧ (∀ i e, ps !! i = Some (JObj e) → registered_id (JObj e) = None →
                 id_message i ∈ out)).
Proof.
  eapply emits_mono.
  - apply (emits_for_acc (λ done seen_ids out,
      seen_ids = list_to_set (omap registered_id done.*2)
      ∧ List.filter is_duplicate out
        = duplicate_message <$> omap (repeats ps) done
      ∧ (∀ i e, (i, JObj e) ∈ done → registered_id (JObj e) = None →
                id_message i ∈ out))).
    + split; [done |]. split; [done |]. by intros ? ? ?%elem_of_nil.
    + intros done [i p] rest seen_ids out Hl (Hseen & Hdup & Hid).
      apply enumerate_split in Hl as [Hi Htake].
      eapply emits_mono; [apply check_project_spec |].
      intros seen' out' (-> & Hdup' & Hid'). simpl.
      rewrite fmap_app, !omap_app, List.filter_app, fmap_app, Hdup, Hdup'.
      assert (omap (repeats ps) [(i, p)]
              = match registered_id p with
                | Some pid => if bool_decide (pid ∈ seen_ids) then [pid] else []
                | None => []
                end) as ->.
      { simpl. unfold repeats. simpl. rewrite Htake.
        destruct (registered_id p) as [pid |]; simpl; [| done].
        rewrite Hseen.
        rewrite (bool_decide_ext (pid ∈ omap registered_id done.*2)
                   (pid ∈ (list_to_set (omap registered_id done.*2)
                           : gset pystr)))
          by (symmetry; apply elem_of_list_to_set).
        by match goal with |- context [bool_decide ?P] =>
             destruct (bool_decide P) end. }
      split; [| split].
      * rewrite list_to_set_app_L, <- Hseen. simpl.
        destruct (registered_id p) as [pid |]; simpl.
        -- by rewrite union_empty_r_L, union_comm_L.
        -- by rewrite union_empty_r_L.
      * f_equal. destruct (registered_id p) as [pid |]; [| done].
        by match goal with |- context [bool_decide ?P] =>
             destruct (bool_decide P) end.
      * intros j e [Hin | Hin]%elem_of_app Hnone.
        -- apply elem_of_app. left. by apply (Hid j e).
        -- apply list_elem_of_singleton in Hin. injection Hin as -> <-.
           apply elem_of_app. right. by apply Hid'.
  - intros seen_ids out (Hseen & Hdup & Hid). simpl in *.
    assert ((enumerate ps).*2 = ps) as Hsnd.
    { unfold enumerate. apply snd_zip. by rewrite length_seq. }
    rewrite Hsnd in Hseen. unfold repeated_ids.
    split; [done |]. split; [done |].
    intros i e Hi. apply Hid. apply list_elem_of_lookup. exists i.
    unfold enumerate. apply lookup_zip_with_Some. exists i, (JObj e).
    split; [done |]. split; [| done].
    apply lookup_seq. split; [done |]. by eapply lookup_lt_Some.
Qed.

#[local] Transparent registered_id.

Lemma registered_id_not_blank (p : value) (pid : pystr) :
  registered_id p = Some pid → forallb isspace pid = false.
Proof.
  unfold registered_id. destruct p as [| | | | | | e]; try done.
  destruct (e !! lit "id") as [[| | | | s | |]|]; try done.
  destruct (truthy (strip s)) eqn:Hs; [| done]. intros [= ->].
  apply not_true_is_false. intros Hb. by rewrite (strip_blank pid Hb) in Hs.
Qed.

Lemma registered_id_blank (e : gmap (list N) value) (pid : pystr) :
  e !! lit "id" = Some (JStr pid) → forallb isspace pid = true →
  registered_id (JObj e) = None.
Proof.
  intros He Hb. unfold registered_id. by rewrite He, (strip_blank pid Hb).
Qed.

(** The [projects] block on an array. *)
Lemma projects_spec (d : gmap (list N) value) (ps : list value) :
  d !! lit "projects" = Some (JArr ps) →
  emits (check_projects (JObj d))
    (λ r out,
       r = (JArr ps, list_to_set (omap registered_id ps))
       ∧ List.filter is_duplicate out = duplicate_message <$> repeated_ids ps
       ∧ (∀ i e, ps !! i = Some (JObj e) → registered_id (JObj e) = None →
                 id_message i ∈ out)).
Proof.
  intros Hd. unfold check_projects.
  eapply emits_bind_lift; [unfold py_get; rewrite Hd; reflexivity |].
  cbn [default is_none isinstance_list negb andb].
  eapply emits_bind_lift; [reflexivity |].
  eapply emits_bind; [apply projects_loop_spec |].
  intros seen_ids out (-> & Hdup & Hid). apply emits_ret.
  by rewrite app_nil_r.
Qed.

Lemma filter_all_outputs (o : outputs) :
  in_families o →
  List.filter is_duplicate (all_outputs o)
  = List.filter is_duplicate (out_projects o).
Proof.
  intros (F1 & F2 & _ & F4 & F5 & F6 & F7 & F8).
  unfold all_outputs. rewrite !List.filter_app.
  rewrite (filter_foreign family_required (out_required o));
    [| vm_compute; reflexivity | assumption].
  rewrite (filter_foreign family_i18n (out_i18n o));
    [| vm_compute; reflexivity | assumption].
  rewrite (filter_foreign family_contexts (out_contexts o));
    [| vm_compute; reflexivity | assumption].
  rewrite (filter_foreign family_reading (out_reading o));
    [| vm_compute; reflexivity | assumption].
  rewrite (filter_foreign family_phd_extract (out_phd_extract o));
    [| vm_compute; reflexivity | assumption].
  rewrite (filter_foreign family_proof (out_proof o));
    [| vm_compute; reflexivity | assumption].
  rewrite (filter_foreign family_bmi (out_bmi o));
    [| vm_compute; reflexivity | assumption].
  simpl. by rewrite app_nil_r.
Qed.

(** C3, as the code has it.  The duplicate-id messages of [validate] are
    exactly those of the entries that repeat an id, in the order of the array:
    an entry is reported when its id is a string that is not blank and an
    earlier entry has the same id; the first entry with an id is not.  In
    particular two entries with the same such id give exactly one duplicate-id
    message, for the second one. *)
Theorem validate_duplicate_ids (d : gmap (list N) value) (ps : list value) :
  d !! lit "projects" = Some (JArr ps) →
  ∃ errors,
    validate lower (JObj d) = Returns errors
    ∧ List.filter is_duplicate errors = duplicate_message <$> repeated_ids ps
    ∧ (∀ p q pid, ps = [p; q] →
         registered_id p = Some pid → registered_id q = Some pid →
         List.filter is_duplicate errors = [duplicate_message pid]).
Proof.
  intros Hd.
  destruct (validate_blocks d) as (o & Hrun & Hfam & Hv).
  exists (all_outputs o). split; [done |].
  destruct (projects_spec d ps Hd) as (r & out & Hout & _ & Hdup & _).
  destruct Hrun as (_ & _ & (seen_ids & Hprojects) & _).
  destruct (runs_det _ _ _ _ _ Hprojects Hout) as [_ E].
  assert (List.filter is_duplicate (all_outputs o)
          = duplicate_message <$> repeated_ids ps) as Hall.
  { by rewrite (filter_all_outputs o Hfam), E. }
  split; [done |].
  intros p q pid -> Hp Hq. rewrite Hall.
  unfold repeated_ids, enumerate, repeats. simpl. rewrite Hp, Hq. simpl.
  rewrite bool_decide_eq_true_2 by (by left). done.
Qed.

(** C9. A project entry whose id is a string of whitespace only is reported
    with the non-empty-string message, and no such string is ever in
    [seen_ids]. *)
Theorem validate_blank_id (d : gmap (list N) value) (ps : list value)
    (idx : nat) (e : gmap (list N) value) (pid : pystr) :
  d !! lit "projects" = Some (JArr ps) →
  ps !! idx = Some (JObj e) →
  e !! lit "id" = Some (JStr pid) →
  forallb isspace pid = true →
  ∃ errors seen_ids out,
    validate lower (JObj d) = Returns errors
    ∧ id_message idx ∈ errors
    ∧ runs (check_projects (JObj d)) (JArr ps, seen_ids) out
    ∧ (pid ∉ seen_ids)
    ∧ (∀ s, s ∈ seen_ids → forallb isspace s = false).
Proof.
  intros Hd Hidx He Hblank.
  destruct (validate_blocks d) as (o & Hrun & Hfam & Hv).
  destruct (projects_spec d ps Hd) as (r & out & Hout & -> & _ & Hid).
  exists (all_outputs o), (list_to_set (omap registered_id ps)), out.
  destruct Hrun as (_ & _ & (seen_ids & Hprojects) & _).
  destruct (runs_det _ _ _ _ _ Hprojects Hout) as [_ E].
  assert (∀ s, s ∈ (list_to_set (omap registered_id ps) : gset pystr) →
               forallb isspace s = false) as Hseen.
  { intros s Hs%elem_of_list_to_set%list_elem_of_omap.
    destruct Hs as (p & _ & Hp). by apply (registered_id_not_blank p). }
  split; [done |]. split; [| split; [done |]; split; [| done]].
  - apply elem_of_all_outputs. do 2 right. left. rewrite E.
    apply (Hid idx e Hidx). by apply (registered_id_blank e pid).
  - intros Hin%Hseen. congruence.
Qed.

(** ** A leading byte-order mark (C7) *)

(** Whatever follows the mark, and whatever the decoder would make of it,
    [main] ends with the invalid-JSON report. *)
Lemma main_bom_invalid (bytes : list N) (text : pystr) :
  utf8_decode bytes = Some text →
  main lower decode (Some (239 :: 187 :: 191 :: bytes))%N
  = InvalidJSON bom_refused.
Proof.
  intros Hb. unfold main.
  assert (utf8_decode (239 :: 187 :: 191 :: bytes)%N = Some (65279%N :: text))
    as ->.
  { change (utf8_decode (239 :: 187 :: 191 :: bytes)%N)
      with (cons 65279%N <$> utf8_decode bytes). by rewrite Hb. }
  reflexivity.
Qed.

(** C7 fails on the code: on a file that holds the byte-order mark EF BB BF
    followed by [{}], [main] reports invalid JSON and [validate] is not
    reached. *)
Theorem main_rejects_bom :
  main lower decode (Some [239; 187; 191; 123; 125]%N)
  = InvalidJSON bom_refused.
Proof. by apply (main_bom_invalid _ (lit "{}")). Qed.

(** The other scripts of the repository read the same file with
    ["utf-8-sig"], which drops the mark: the decoder then sees [{}]. *)
Lemma sibling_read_drops_bom :
  utf8_sig_decode [239; 187; 191; 123; 125]%N = Some (lit "{}")
  ∧ (json_loads decode <$> utf8_sig_decode [239; 187; 191; 123; 125]%N)
    = Some (decode (lit "{}")).
Proof. split; reflexivity. Qed.


(** * The accepted documents

    Block by block, when nothing is reported. *)

Lemma clean_iff {A} (C C' : Prop) (m : M A) :
  clean C m → (C ↔ C') → clean C' m.
Proof.
  intros Hm HC. eapply emits_mono; [exact Hm |].
  intros ? out Hout. simpl in *. by rewrite Hout.
Qed.

Lemma clean_ret {A} (a : A) : clean True (mret a).
Proof. by apply emits_ret. Qed.

Lemma clean_err (message : pystr) : clean False (_err message).
Proof. apply emits_err. done. Qed.

Lemma clean_when (c : bool) (message : pystr) :
  clean (c = false) (when c (_err message)).
Proof. destruct c; simpl; [apply emits_err | apply emits_ret]; done. Qed.

Lemma clean_bind {A B} (C1 C2 : Prop) (m : M A) (k : A → M B) :
  clean C1 m → (∀ a, clean C2 (k a)) → clean (C1 ∧ C2) (m ≫= k).
Proof.
  intros Hm Hk. eapply emits_bind; [exact Hm |].
  intros a out1 H1. eapply emits_mono; [apply Hk |].
  intros b out2 H2. simpl in *. rewrite <- H1, <- H2.
  split; [by intros [-> ->]%app_eq_nil | by intros [-> ->]].
Qed.

Lemma clean_bind_lift {A B} (C : Prop) (r : result A) (a : A) (k : A → M B) :
  r = Returns a → clean C (k a) → clean C (lift r ≫= k).
Proof. apply emits_bind_lift. Qed.

Lemma clean_for_each {A} (ok : A → bool) (l : list A) (body : A → M unit) :
  (∀ x, x ∈ l → clean (ok x = true) (body x)) →
  clean (forallb ok l = true) (for_each l body).
Proof.
  intros Hbody. unfold for_each. eapply emits_mono.
  - apply (emits_for_acc (λ done _ out, out = [] ↔ forallb ok done = true)).
    + done.
    + intros done x rest [] out -> Hinv.
      eapply emits_mono.
      * apply (Hbody x). apply elem_of_app. right. by left.
      * intros ? out' Hx. simpl in *.
        rewrite forallb_app. simpl. rewrite andb_true_r, andb_true_iff.
        rewrite <- Hinv, <- Hx.
        split; [by intros [-> ->]%app_eq_nil | by intros [-> ->]].
  - auto.
Qed.

(** [if k in d and not P(d[k]): _err(...)] *)
Lemma clean_key_check (P : value → bool) (sp : gmap (list N) value)
    (k message : pystr) :
  clean (absent_or P sp k = true)
    (has ← lift (py_in k (JObj sp));
     bad ← lift (and_then has
       (x ← py_getitem (JObj sp) k; mret (negb (P x))));
     when bad (_err message)).
Proof.
  eapply clean_bind_lift; [reflexivity |].
  unfold absent_or, has_key, py_getitem.
  destruct (sp !! k) as [v |]; simpl.
  - eapply clean_bind_lift; [reflexivity |].
    eapply clean_iff; [apply clean_when |]. apply negb_false_iff.
  - eapply clean_bind_lift; [reflexivity |].
    eapply clean_iff; [apply clean_when |]. done.
Qed.

Lemma localized_or_str_returns (v : value) :
  localized_or_str v = Returns (text_ok v).
Proof.
  unfold localized_or_str, _is_localized, text_ok, localized_object.
  destruct v as [| | | | | | d]; simpl; try done.
  destruct (has_key d (lit "en")); simpl; [done |].
  destruct (has_key d (lit "it")); done.
Qed.

(** [if k in d and not (_is_localized(d[k]) or isinstance(d[k], str))] *)
Lemma clean_text_check (sp : gmap (list N) value) (k message : pystr) :
  clean (absent_or text_ok sp k = true)
    (has ← lift (py_in k (JObj sp));
     bad ← lift (and_then has
       (x ← py_getitem (JObj sp) k;
        ok ← localized_or_str x;
        mret (negb ok)));
     when bad (_err message)).
Proof.
  eapply clean_bind_lift; [reflexivity |].
  unfold absent_or, has_key, py_getitem.
  destruct (sp !! k) as [v |]; simpl.
  - unfold mbind at 2, result_bind. rewrite localized_or_str_returns. simpl.
    eapply clean_bind_lift; [reflexivity |].
    eapply clean_iff; [apply clean_when |]. apply negb_false_iff.
  - eapply clean_bind_lift; [reflexivity |].
    eapply clean_iff; [apply clean_when |]. done.
Qed.

Lemma clean_required d :
  clean (required_ok d = true) (check_required_keys (JObj d)).
Proof.
  unfold check_required_keys, required_ok.
  apply clean_for_each. intros key _.
  eapply clean_bind_lift; [reflexivity |].
  eapply clean_iff; [apply clean_when |]. apply negb_false_iff.
Qed.

Lemma clean_i18n d : clean (i18n_ok d = true) (check_i18n (JObj d)).
Proof.
  unfold check_i18n, i18n_ok, none_or.
  eapply clean_bind_lift; [reflexivity |].
  destruct (d !! lit "i18n") as [[| | | | | | l] |]; simpl;
    try (by eapply clean_iff; [apply clean_err |]);
    try (by eapply clean_iff; [apply clean_ret |]).
  eapply clean_iff.
  - apply (clean_for_each
             (λ lang, match l !! lang with
                      | Some x => isinstance_dict x
                      | None => false
                      end)).
    intros lang _.
    eapply clean_bind_lift; [reflexivity |]. unfold has_key, py_getitem.
    destruct (l !! lang) as [x |]; simpl.
    + eapply clean_bind_lift; [reflexivity |].
      eapply clean_iff; [apply clean_when |]. apply negb_false_iff.
    + eapply clean_iff; [apply clean_err |]. done.
  - done.
Qed.


(** The same checks followed by the rest of a block. *)
Lemma clean_key_check_then {B : Type} (P : value → bool) (sp : gmap (list N) value)
    (k message : pystr) (C : Prop) (rest : M B) :
  clean C rest →
  clean (absent_or P sp k = true ∧ C)
    (has ← lift (py_in k (JObj sp));
     bad ← lift (and_then has
       (x ← py_getitem (JObj sp) k; mret (negb (P x))));
     when bad (_err message);; rest).
Proof.
  intros Hrest. eapply clean_bind_lift; [reflexivity |].
  unfold absent_or, has_key, py_getitem.
  destruct (sp !! k) as [v |]; simpl.
  - eapply clean_bind_lift; [reflexivity |].
    eapply clean_iff; [apply clean_bind; [apply clean_when | by intros []] |].
    by rewrite negb_false_iff.
  - eapply clean_bind_lift; [reflexivity |].
    eapply clean_iff; [apply clean_bind; [apply clean_when | by intros []] |].
    by split; intros [_ ?].
Qed.

Lemma clean_text_check_then {B : Type} (sp : gmap (list N) value)
    (k message : pystr) (C : Prop) (rest : M B) :
  clean C rest →
  clean (absent_or text_ok sp k = true ∧ C)
    (has ← lift (py_in k (JObj sp));
     bad ← lift (and_then has
       (x ← py_getitem (JObj sp) k;
        ok ← localized_or_str x;
        mret (negb ok)));
     when bad (_err message);; rest).
Proof.
  intros Hrest. eapply clean_bind_lift; [reflexivity |].
  unfold absent_or, has_key, py_getitem.
  destruct (sp !! k) as [v |]; simpl.
  - unfold mbind at 3, result_bind. rewrite localized_or_str_returns. simpl.
    eapply clean_bind_lift; [reflexivity |].
    eapply clean_iff; [apply clean_bind; [apply clean_when | by intros []] |].
    by rewrite negb_false_iff.
  - eapply clean_bind_lift; [reflexivity |].
    eapply clean_iff; [apply clean_bind; [apply clean_when | by intros []] |].
    by split; intros [_ ?].
Qed.

(** Reducing the tests on a value whose runtime type is known. *)
Ltac known :=
  cbn [default is_none isinstance_dict isinstance_list isinstance_str
       negb andb orb when].

Lemma clean_contexts d :
  clean (contexts_ok d = true) (check_contexts (JObj d)).
Proof.
  unfold check_contexts, contexts_ok, none_or.
  eapply clean_bind_lift; [reflexivity |].
  destruct (d !! lit "contexts") as [[| | | | | | c] |]; known;
    try (by eapply clean_iff; [apply clean_err |]);
    try (by eapply clean_iff; [apply clean_ret |]).
  eapply clean_iff.
  - apply clean_text_check_then.
    apply (clean_for_each (absent_or isinstance_list c)). intros key _.
    apply (clean_key_check isinstance_list).
  - by rewrite andb_true_iff.
Qed.

Lemma clean_reading d : clean (reading_ok d = true) (check_reading (JObj d)).
Proof.
  unfold check_reading, reading_ok, none_or.
  eapply clean_bind_lift; [reflexivity |].
  destruct (d !! lit "reading") as [[| | | | | | r] |]; known;
    try (by eapply clean_iff; [apply clean_err |]);
    try (by eapply clean_iff; [apply clean_ret |]).
  eapply clean_bind_lift; [reflexivity |].
  eapply clean_iff; [apply clean_when |].
  by destruct (r !! lit "domains") as [[] |].
Qed.

Lemma strings_array_check (v : value) :
  or_else (negb (isinstance_list v)) (ok ← all_str v; mret (negb ok))
  = Returns (negb (strings_array v)).
Proof. by destruct v. Qed.

Lemma clean_phd_extract d :
  clean (phd_extract_ok d = true) (check_phd_extract (JObj d)).
Proof.
  unfold check_phd_extract, phd_extract_ok.
  eapply clean_bind_lift; [reflexivity |].
  destruct (d !! lit "phd_extract") as [[| | | | | | pe] |]; known;
    try (by eapply clean_iff; [apply clean_err |]).
  eapply clean_bind_lift; [reflexivity |].
  eapply clean_iff.
  - apply (clean_bind
             (isinstance_dict (default JNull (pe !! lit "source")) = true)
             (forallb (λ key, strings_array (default JNull (pe !! key)))
                required_arrays = true)).
    + eapply clean_iff; [apply clean_when |].
      by destruct (default JNull (pe !! lit "source")).
    + intros []. apply clean_for_each. intros key _.
      eapply clean_bind_lift; [reflexivity |].
      destruct (default JNull (pe !! key)) as [| | | | | l |] eqn:E; known;
        try (by eapply clean_iff; [apply clean_err |]);
        try (eapply clean_bind_lift; [reflexivity |]; known;
             by eapply clean_iff; [apply clean_err |]).
      eapply clean_bind_lift; [apply (strings_array_check (JArr l)) |].
      eapply clean_iff; [apply clean_when |]. apply negb_false_iff.
  - by rewrite andb_true_iff.
Qed.


Lemma forallb_enumerate {A} (ok : A → bool) (l : list A) :
  forallb (λ entry : nat * A, ok entry.2) (enumerate l) = forallb ok l.
Proof.
  unfold enumerate. generalize 0. induction l as [| x l IH]; intros n; simpl.
  - done.
  - by rewrite IH.
Qed.

Lemma clean_contained_item (idx cidx : nat) (item : value) :
  clean (contained_item_ok item = true)
    (let here := lit "projects[" ++ dec idx ++ lit "].contained["
                 ++ dec cidx ++ lit "]" in
     if negb (isinstance_dict item) then
       _err (here ++ lit " must be an object")
     else
       name ← lift (py_get item (lit "name"));
       when (negb (isinstance_str_or_dict name))
         (_err (here ++ lit ".name must be string or localized object"));;
       has_tagline ← lift (py_in (lit "tagline") item);
       bad_tagline ← lift (and_then has_tagline
         (tagline ← py_get item (lit "tagline");
          mret (negb (isinstance_str_or_dict tagline))));
       when bad_tagline
         (_err (here ++ lit ".tagline must be string or localized object"))).
Proof.
  cbv zeta. unfold contained_item_ok.
  destruct item as [| | | | | | it]; known;
    try (by eapply clean_iff; [apply clean_err |]).
  eapply clean_bind_lift; [reflexivity |].
  eapply clean_iff.
  - apply (clean_bind
             (isinstance_str_or_dict (default JNull (it !! lit "name")) = true)
             (absent_or isinstance_str_or_dict it (lit "tagline") = true)).
    + eapply clean_iff; [apply clean_when |]. apply negb_false_iff.
    + intros []. eapply clean_bind_lift; [reflexivity |].
      unfold absent_or, has_key, py_get.
      destruct (it !! lit "tagline") as [t |]; simpl.
      * eapply clean_bind_lift; [reflexivity |].
        eapply clean_iff; [apply clean_when |]. apply negb_false_iff.
      * eapply clean_bind_lift; [reflexivity |].
        eapply clean_iff; [apply clean_when |]. done.
  - by rewrite andb_true_iff.
Qed.

Lemma clean_contained (idx : nat) (e : gmap (list N) value) :
  clean (contained_ok e = true) (check_contained idx (JObj e)).
Proof.
  unfold check_contained, contained_ok, none_or.
  eapply clean_bind_lift; [reflexivity |].
  destruct (e !! lit "contained") as [[| | | | | items |] |]; known;
    try (by eapply clean_iff; [apply clean_err |]);
    try (by eapply clean_iff; [apply clean_ret |]).
  eapply clean_bind_lift; [reflexivity |].
  eapply clean_iff.
  - apply (clean_for_each (λ entry : nat * value, contained_item_ok entry.2)).
    intros [cidx item] _. apply clean_contained_item.
  - by rewrite forallb_enumerate.
Qed.

Lemma clean_spec (idx : nat) (e : gmap (list N) value) :
  clean (spec_ok e = true) (check_spec idx (JObj e)).
Proof.
  unfold check_spec, spec_ok, none_or.
  eapply clean_bind_lift; [reflexivity |].
  destruct (e !! lit "spec") as [[| | | | | | sp] |]; known;
    try (by eapply clean_iff; [apply clean_err |]);
    try (by eapply clean_iff; [apply clean_ret |]).
  eapply clean_iff.
  - apply (clean_key_check_then isinstance_str).
    apply (clean_bind
             (forallb (absent_or text_ok sp) [lit "boundary"; lit "purpose"]
              = true)
             (forallb (absent_or isinstance_list sp)
                [lit "inputs"; lit "outputs"; lit "reuse"; lit "constraints";
                 lit "current_focus"] = true)).
    + apply clean_for_each. intros key _. apply clean_text_check.
    + intros []. apply clean_for_each. intros key _.
      apply (clean_key_check isinstance_list).
  - rewrite !andb_true_iff. by split; [intros (? & ? & ?) | intros [[? ?] ?]].
Qed.


(** One turn of the loop over the projects: when it reports nothing. *)
Lemma clean_project (idx : nat) (p : value) (seen_ids : gset pystr) :
  emits (check_project (idx, p) seen_ids)
    (λ seen' out,
       seen' = match registered_id p with
               | Some pid => {[ pid ]} ∪ seen_ids
               | None => seen_ids
               end
       ∧ (out = [] ↔
          project_ok p = true
          ∧ ∀ pid, registered_id p = Some pid → pid ∉ seen_ids)).
Proof.
  unfold check_project.
  destruct p as [| | | | | | e];
    try (simpl; apply emits_err_then, emits_ret; split; [done |];
         by split; [| intros [? _]]).
  cbn [isinstance_dict negb].
  eapply emits_bind; [apply check_id_spec |]. intros seen1 out1 H1.
  eapply emits_bind; [apply clean_contained |]. intros [] out2 H2.
  eapply emits_bind; [apply clean_spec |]. intros [] out3 H3.
  apply emits_ret. rewrite app_nil_r. simpl in H2, H3.
  unfold project_ok.
  destruct (registered_id (JObj e)) as [pid |].
  - destruct (bool_decide (pid ∈ seen_ids)) eqn:Hin; destruct H1 as [-> ->].
    + apply bool_decide_eq_true in Hin. split.
      * symmetry. by apply subseteq_union_1_L, singleton_subseteq_l.
      * split; [done |]. intros [_ Hnew]. by destruct (Hnew pid).
    + apply bool_decide_eq_false in Hin. split; [done |].
      simpl. rewrite andb_true_iff, <- H2, <- H3. split.
      * intros [-> ->]%app_eq_nil. split; [done |]. by intros ? [= <-].
      * by intros [[-> ->] _].
  - destruct H1 as [-> ->]. split; [done |].
    by split; [| intros [? _]].
Qed.

Lemma clean_projects_loop (ps : list value) :
  emits (for_acc (enumerate ps) ∅ check_project)
    (λ _ out,
       out = [] ↔
       forallb project_ok ps = true ∧ NoDup (omap registered_id ps)).
Proof.
  eapply emits_mono.
  - apply (emits_for_acc (λ done seen_ids out,
      seen_ids = list_to_set (omap registered_id done.*2)
      ∧ (out = [] ↔
         forallb project_ok done.*2 = true
         ∧ NoDup (omap registered_id done.*2)))).
    + split; [done |]. split; [| done]. intros _. split; [done | constructor].
    + intros done [i p] rest seen_ids out _ (Hseen & Hout).
      eapply emits_mono; [apply clean_project |].
      intros seen' out' (-> & Hout'). simpl.
      rewrite fmap_app, omap_app, forallb_app, list_to_set_app_L, <- Hseen.
      simpl. rewrite andb_true_r. split.
      * destruct (registered_id p) as [pid |]; simpl.
        -- by rewrite union_empty_r_L, union_comm_L.
        -- by rewrite union_empty_r_L.
      * rewrite andb_true_iff, NoDup_app.
        split.
        -- intros [Ho Ho']%app_eq_nil.
           apply Hout in Ho as [Hok Hnd]. apply Hout' in Ho' as [Hp Hnew].
           split; [done |]. split; [done |].
           destruct (registered_id p) as [pid |]; simpl.
           ++ split; [| apply NoDup_singleton].
              intros x Hx ->%list_elem_of_singleton.
              apply (Hnew pid eq_refl). rewrite Hseen.
              by apply elem_of_list_to_set.
           ++ split; [by intros ? _ ?%elem_of_nil | constructor].
        -- intros [[Hok Hp] (Hnd & Hfresh & _)].
           assert (out = []) as -> by (by apply Hout).
           assert (out' = []) as ->; [| done].
           apply Hout'. split; [done |].
           intros pid Hpid Hin. rewrite Hseen in Hin.
           apply elem_of_list_to_set in Hin.
           apply (Hfresh pid Hin). rewrite Hpid. simpl. by left.
  - intros seen_ids out (_ & Hout). simpl in Hout.
    assert ((enumerate ps).*2 = ps) as Hsnd.
    { unfold enumerate. apply snd_zip. by rewrite length_seq. }
    by rewrite Hsnd in Hout.
Qed.

Lemma clean_projects d : clean (projects_ok d) (check_projects (JObj d)).
Proof.
  unfold check_projects, projects_ok.
  eapply clean_bind_lift; [reflexivity |].
  destruct (d !! lit "projects") as [[| | | | | ps |] |]; known;
    try (by apply emits_err_then, emits_ret);
    try (by apply emits_ret).
  eapply emits_bind_lift; [reflexivity |].
  eapply emits_bind; [apply clean_projects_loop |].
  intros seen_ids out Hout. apply emits_ret. by rewrite app_nil_r.
Qed.


Lemma clean_domomea_item (idx : nat) (it : gmap (list N) value) :
  clean (domomea_item_ok (JObj it) = true) (check_domomea_item (idx, JObj it)).
Proof.
  unfold check_domomea_item, domomea_item_ok. cbv zeta.
  eapply clean_bind_lift; [reflexivity |]. simpl default.
  eapply clean_bind_lift; [apply strings_array_check |].
  eapply clean_iff.
  - apply (clean_bind
             (match default JNull (it !! lit "bullets") with
              | JArr bs =>
                  forallb isinstance_str bs
                  && ((6 <=? length bs) && (length bs <=? 10))
              | _ => false
              end = true)
             (isinstance_str_or_dict (default JNull (it !! lit "source"))
              = true)).
    + destruct (default JNull (it !! lit "bullets")) as [| | | | | bs |];
        simpl; try (by eapply clean_iff; [apply clean_err |]).
      destruct (forallb isinstance_str bs); simpl;
        [| by eapply clean_iff; [apply clean_err |]].
      eapply clean_bind_lift; [reflexivity |].
      eapply clean_iff; [apply clean_when |]. apply negb_false_iff.
    + intros []. eapply clean_bind_lift; [reflexivity |].
      eapply clean_iff; [apply clean_when |]. apply negb_false_iff.
  - by rewrite andb_true_iff.
Qed.

Lemma clean_proof d : clean (proof_ok lower d = true) (check_proof lower (JObj d)).
Proof.
  unfold check_proof, proof_ok, proof_groups.
  eapply clean_bind_lift; [reflexivity |].
  destruct (d !! lit "proof") as [[| | | | | | p] |]; simpl;
    try (eapply clean_bind_lift; [reflexivity |];
         by eapply clean_iff; [apply clean_ret |]).
  unfold mbind at 2, result_bind. simpl.
  destruct (p !! lit "categories") as [[| | | | | groups |] |] eqn:Hp; simpl;
    try (eapply clean_bind_lift; [reflexivity |];
         by eapply clean_iff; [apply clean_ret |]).
  eapply clean_bind_lift; [reflexivity |]. simpl.
  eapply clean_bind_lift; [reflexivity |].
  eapply clean_bind_lift; [reflexivity |].
  eapply (emits_bind _ _
            (λ items out, items = domomea_items lower groups ∧ out = [])).
  { exists (domomea_items lower groups), []. split; [| done].
    apply silent_runs, (silent_collect_groups groups []). }
  intros items out1 [-> ->]. simpl.
  destruct (truthy (domomea_items lower groups)) eqn:Ht; simpl.
  - apply (clean_iff (forallb (λ entry : nat * value, domomea_item_ok entry.2)
                        (enumerate (domomea_items lower groups)) = true)).
    + apply clean_for_each. intros [idx item] Hin.
      pose proof (domomea_items_dicts groups item
                    (elem_of_enumerate _ _ _ Hin)) as Hdict.
      destruct item; try discriminate. apply clean_domomea_item.
    + by rewrite forallb_enumerate.
  - by eapply clean_iff; [apply clean_err |].
Qed.

Lemma next_matching_find (ps : list value) :
  next_matching is_bmi ps JNull = Returns (default JNull (bmi_project ps)).
Proof.
  unfold bmi_project. induction ps as [| p ps IH]; simpl; [done |].
  rewrite is_bmi_spec. simpl. by destruct (has_id_bmi p).
Qed.

Lemma bmi_project_dict (ps : list value) (p : value) :
  bmi_project ps = Some p → isinstance_dict p = true.
Proof.
  unfold bmi_project. intros [_ H]%List.find_some. by destruct p.
Qed.

Lemma clean_bmi d : clean (bmi_ok d = true) (check_bmi (projects_of d)).
Proof.
  unfold check_bmi, bmi_ok, projects_of.
  destruct (d !! lit "projects") as [[| | | | | ps |] |]; known;
    try (by eapply clean_iff; [apply clean_ret |]).
  eapply clean_bind_lift; [reflexivity |].
  eapply clean_bind_lift; [apply next_matching_find |].
  destruct (bmi_project ps) as [p |] eqn:Hbmi; simpl;
    [| by eapply clean_iff; [apply clean_err |]].
  pose proof (bmi_project_dict ps p Hbmi) as Hdict.
  destruct p as [| | | | | | b]; try discriminate. known.
  eapply clean_bind_lift; [reflexivity |]. unfold none_or.
  destruct (b !! lit "evidence_bullets") as [[| | | | | bs |] |]; known;
    try (by eapply clean_iff; [apply clean_ret |]);
    try (eapply clean_bind_lift; [reflexivity |]; known;
         by eapply clean_iff; [apply clean_err |]).
  eapply clean_bind_lift; [apply (strings_array_check (JArr bs)) |]. simpl.
  destruct (forallb isinstance_str bs); simpl;
    [| by eapply clean_iff; [apply clean_err |]].
  eapply clean_bind_lift; [reflexivity |].
  eapply clean_iff; [apply clean_when |]. apply negb_false_iff.
Qed.


(** ** What an empty or a partly empty result means *)

Lemma none_from_own (f : list pystr) (out : list pystr) :
  Forall (from f) out → none_from f out ↔ out = [].
Proof.
  intros Hout. split; [| intros ->; constructor].
  destruct Hout as [| m out Hm _]; [done |].
  intros H. inversion H as [| ? ? Hm' _]; subst. unfold from in Hm. congruence.
Qed.

Lemma none_from_other (f f' : list pystr) (out : list pystr) :
  apart f' f = true → Forall (from f') out → none_from f out.
Proof.
  intros Hap Hout. eapply Forall_impl; [exact Hout |].
  intros m Hm. by apply (apart_sound f').
Qed.

Lemma none_from_app (f : list pystr) (l1 l2 : list pystr) :
  none_from f (l1 ++ l2) ↔ none_from f l1 ∧ none_from f l2.
Proof. apply Forall_app. Qed.


(** When each block reports nothing. *)
Lemma blocks_clean d (o : outputs) :
  blocks_run lower d o →
  (out_required o = [] ↔ required_ok d = true)
  ∧ (out_i18n o = [] ↔ i18n_ok d = true)
  ∧ (out_projects o = [] ↔ projects_ok d)
  ∧ (out_contexts o = [] ↔ contexts_ok d = true)
  ∧ (out_reading o = [] ↔ reading_ok d = true)
  ∧ (out_phd_extract o = [] ↔ phd_extract_ok d = true)
  ∧ (out_proof o = [] ↔ proof_ok lower d = true)
  ∧ (out_bmi o = [] ↔ bmi_ok d = true).
Proof.
  intros (R1 & R2 & (seen_ids & R3) & R4 & R5 & R6 & R7 & R8).
  destruct (clean_required d) as (a1 & x1 & H1 & C1).
  destruct (clean_i18n d) as (a2 & x2 & H2 & C2).
  destruct (clean_projects d) as (a3 & x3 & H3 & C3).
  destruct (clean_contexts d) as (a4 & x4 & H4 & C4).
  destruct (clean_reading d) as (a5 & x5 & H5 & C5).
  destruct (clean_phd_extract d) as (a6 & x6 & H6 & C6).
  destruct (clean_proof d) as (a7 & x7 & H7 & C7).
  destruct (clean_bmi d) as (a8 & x8 & H8 & C8).
  destruct (runs_det _ _ _ _ _ R1 H1) as [_ ->].
  destruct (runs_det _ _ _ _ _ R2 H2) as [_ ->].
  destruct (runs_det _ _ _ _ _ R3 H3) as [_ ->].
  destruct (runs_det _ _ _ _ _ R4 H4) as [_ ->].
  destruct (runs_det _ _ _ _ _ R5 H5) as [_ ->].
  destruct (runs_det _ _ _ _ _ R6 H6) as [_ ->].
  destruct (runs_det _ _ _ _ _ R7 H7) as [_ ->].
  destruct (runs_det _ _ _ _ _ R8 H8) as [_ ->].
  done.
Qed.



(** In the whole result, the messages of one family are those of its
    block. *)
Ltac own_family :=
  unfold all_outputs; rewrite !none_from_app;
  split;
  [ intros (? & ? & ? & ? & ? & ? & ? & ?); assumption
  | let H := fresh in
    intros H; repeat split;
    first [ exact H
          | eapply none_from_other; [| eassumption]; vm_compute; reflexivity ] ].

(** (X5) The [projects] block (lines 46-90): the result of [validate] holds
    no message about ["projects"] or one of its entries, the duplicate-id
    messages included, exactly when ["projects"] is absent or [None], or is
    an array of accepted entries whose registered ids are pairwise
    distinct. *)
Theorem validate_projects_messages d :
  ∃ errors,
    validate lower (JObj d) = Returns errors
    ∧ (none_from family_projects errors ↔ projects_ok d).
Proof.
  destruct (validate_blocks d) as (o & Hrun & Hfam & Hv).
  exists (all_outputs o). split; [done |].
  destruct (blocks_clean d o Hrun) as (_ & _ & <- & _).
  destruct Hfam as (F1 & F2 & F3 & F4 & F5 & F6 & F7 & F8).
  rewrite <- (none_from_own family_projects (out_projects o) F3).
  own_family.
Qed.

(** (X6) The [contexts] block (lines 92-101): no message about ["contexts"]
    exactly when it is absent or [None], or is an object whose
    ["disclaimer"], if the key is there, is a string or a localized object
    and whose ["direct_work"] and ["operational_exposure"], if there, are
    arrays. *)
Theorem validate_contexts_messages d :
  ∃ errors,
    validate lower (JObj d) = Returns errors
    ∧ (none_from family_contexts errors ↔ contexts_ok d = true).
Proof.
  destruct (validate_blocks d) as (o & Hrun & Hfam & Hv).
  exists (all_outputs o). split; [done |].
  destruct (blocks_clean d o Hrun) as (_ & _ & _ & <- & _).
  destruct Hfam as (F1 & F2 & F3 & F4 & F5 & F6 & F7 & F8).
  rewrite <- (none_from_own family_contexts (out_contexts o) F4).
  own_family.
Qed.

(** (X7) The [reading] block (lines 103-110): no message about ["reading"]
    exactly when it is absent or [None], or is an object whose ["domains"]
    is absent, [None] or an array. *)
Theorem validate_reading_messages d :
  ∃ errors,
    validate lower (JObj d) = Returns errors
    ∧ (none_from family_reading errors ↔ reading_ok d = true).
Proof.
  destruct (validate_blocks d) as (o & Hrun & Hfam & Hv).
  exists (all_outputs o). split; [done |].
  destruct (blocks_clean d o Hrun) as (_ & _ & _ & _ & <- & _).
  destruct Hfam as (F1 & F2 & F3 & F4 & F5 & F6 & F7 & F8).
  rewrite <- (none_from_own family_reading (out_reading o) F5).
  own_family.
Qed.

(** (X8) The [phd_extract] block (lines 112-135): no message about
    ["phd_extract"] exactly when it is an object whose ["source"] is an
    object and whose seven required keys all map to arrays of strings. *)
Theorem validate_phd_extract_messages d :
  ∃ errors,
    validate lower (JObj d) = Returns errors
    ∧ (none_from family_phd_extract errors ↔ phd_extract_ok d = true).
Proof.
  destruct (validate_blocks d) as (o & Hrun & Hfam & Hv).
  exists (all_outputs o). split; [done |].
  destruct (blocks_clean d o Hrun) as (_ & _ & _ & _ & _ & <- & _).
  destruct Hfam as (F1 & F2 & F3 & F4 & F5 & F6 & F7 & F8).
  rewrite <- (none_from_own family_phd_extract (out_phd_extract o) F6).
  own_family.
Qed.

(** (X9) The [proof] block (lines 137-165): no message of the block exactly
    when it has nothing to look at (["proof"] is not an object or its
    ["categories"] is not an array), or there is a DoMoMEA item and every
    DoMoMEA item has 6 to 10 bullets, all strings, and a ["source"] that is
    a string or an object. *)
Theorem validate_proof_messages d :
  ∃ errors,
    validate lower (JObj d) = Returns errors
    ∧ (none_from family_proof errors ↔ proof_ok lower d = true).
Proof.
  destruct (validate_blocks d) as (o & Hrun & Hfam & Hv).
  exists (all_outputs o). split; [done |].
  destruct (blocks_clean d o Hrun) as (_ & _ & _ & _ & _ & _ & <- & _).
  destruct Hfam as (F1 & F2 & F3 & F4 & F5 & F6 & F7 & F8).
  rewrite <- (none_from_own family_proof (out_proof o) F7).
  own_family.
Qed.

(** (X10) The [bmi] block (lines 167-177): no message about the [bmi]
    project exactly when ["projects"] is not an array, or its first object
    of id ["bmi"] exists and has an ["evidence_bullets"] that is absent,
    [None] or an array of 4 to 8 strings. *)
Theorem validate_bmi_messages d :
  ∃ errors,
    validate lower (JObj d) = Returns errors
    ∧ (none_from family_bmi errors ↔ bmi_ok d = true).
Proof.
  destruct (validate_blocks d) as (o & Hrun & Hfam & Hv).
  exists (all_outputs o). split; [done |].
  destruct (blocks_clean d o Hrun) as (_ & _ & _ & _ & _ & _ & _ & <-).
  destruct Hfam as (F1 & F2 & F3 & F4 & F5 & F6 & F7 & F8).
  rewrite <- (none_from_own family_bmi (out_bmi o) F8).
  own_family.
Qed.

Lemma all_outputs_nil (o : outputs) :
  all_outputs o = [] ↔
  out_required o = [] ∧ out_i18n o = [] ∧ out_projects o = []
  ∧ out_contexts o = [] ∧ out_reading o = [] ∧ out_phd_extract o = []
  ∧ out_proof o = [] ∧ out_bmi o = [].
Proof. unfold all_outputs. by rewrite !app_nil. Qed.

(** On an object, the empty result means that every block accepts it. *)
Lemma validate_nil d :
  validate lower (JObj d) = Returns [] ↔ accepted lower d.
Proof.
  destruct (validate_blocks d) as (o & Hrun & _ & ->).
  destruct (blocks_clean d o Hrun)
    as (E1 & E2 & E3 & E4 & E5 & E6 & E7 & E8).
  assert (all_outputs o = [] ↔ accepted lower d) as <-.
  { unfold accepted.
    by rewrite <- E1, <- E2, <- E3, <- E4, <- E5, <- E6, <- E7, <- E8,
      <- all_outputs_nil. }
  split; [by intros [=] | by intros ->].
Qed.

(** (X1) [validate] returns the empty list, the result [main] reports as
    passed, exactly on the objects that every block accepts. *)
Theorem validate_accepts (profile : value) :
  validate lower profile = Returns [] ↔
  ∃ d, profile = JObj d ∧ accepted lower d.
Proof.
  destruct profile as [| | | | | | d];
    try (split; [by intros [=] | by intros (? & [=] & _)]).
  rewrite validate_nil. split.
  - intros Hd. by exists d.
  - by intros (? & [= <-] & Hd).
Qed.

Lemma pairwise_apart_lookup (fs : list (list pystr)) (i j : nat)
    (f g : list pystr) :
  pairwise_apart fs = true → i < j →
  fs !! i = Some f → fs !! j = Some g → apart f g = true.
Proof.
  revert i j. induction fs as [| h fs IH]; intros i j Hp Hij Hi Hj; [done |].
  simpl in Hp. apply andb_true_iff in Hp as [Hh Hp].
  destruct i as [| i], j as [| j]; try lia; simpl in Hi, Hj.
  - injection Hi as ->. rewrite forallb_forall in Hh. apply Hh.
    apply list_elem_of_In. by eapply list_elem_of_lookup_2.
  - apply (IH i j); [done | lia | done | done].
Qed.

(** No message starts like the messages of two blocks. *)
Lemma families_disjoint (i j : nat) (f g : list pystr) (m : pystr) :
  families !! i = Some f → families !! j = Some g → i ≠ j →
  from f m → ¬ from g m.
Proof.
  intros Hi Hj Hij Hf Hg. unfold from in Hf, Hg.
  assert (pairwise_apart families = true) as Hp by (vm_compute; reflexivity).
  destruct (Nat.lt_trichotomy i j) as [Hlt | [-> | Hlt]]; [| done |].
  - rewrite (apart_sound f g m) in Hg; [done | | done].
    by apply (pairwise_apart_lookup families i j).
  - rewrite (apart_sound g f m) in Hf; [done | | done].
    by apply (pairwise_apart_lookup families j i).
Qed.

(** (X2) The messages of [validate] on an object come grouped by block, in
    the order of the source: the required keys, [i18n], [projects],
    [contexts], [reading], [phd_extract], [proof], and the [bmi] project last,
    every message starting like the messages of its block; and the blocks
    can be told apart: no message starts like the messages of two different
    blocks. *)
Theorem validate_message_order d :
  ∃ required i18n projects contexts reading phd_extract proof bmi,
    validate lower (JObj d)
    = Returns (required ++ i18n ++ projects ++ contexts ++ reading
               ++ phd_extract ++ proof ++ bmi)
    ∧ Forall (from family_required) required
    ∧ Forall (from family_i18n) i18n
    ∧ Forall (from family_projects) projects
    ∧ Forall (from family_contexts) contexts
    ∧ Forall (from family_reading) reading
    ∧ Forall (from family_phd_extract) phd_extract
    ∧ Forall (from family_proof) proof
    ∧ Forall (from family_bmi) bmi
    ∧ (∀ i j f g m,
         families !! i = Some f → families !! j = Some g → i ≠ j →
         from f m → ¬ from g m).
Proof.
  destruct (validate_blocks d)
    as (o & _ & (F1 & F2 & F3 & F4 & F5 & F6 & F7 & F8) & Hv).
  exists (out_required o), (out_i18n o), (out_projects o), (out_contexts o),
    (out_reading o), (out_phd_extract o), (out_proof o), (out_bmi o).
  repeat (split; [assumption |]).
  apply families_disjoint.
Qed.

(** ** Missing keys *)

Lemma missing_key_inj (x y : pystr) : missing_key x = missing_key y → x = y.
Proof. unfold missing_key. by intros ?%app_inv_head. Qed.

(** The loop of lines 32-34 reports exactly the keys that are absent. *)
Lemma required_spec d (keys : list pystr) :
  emits
    (for_each keys (λ key,
       present ← lift (py_in key (JObj d));
       when (negb present)
         (_err (lit "Missing required top-level key: " ++ key))))
    (λ _ out, ∀ key, missing_key key ∈ out ↔ key ∈ keys ∧ d !! key = None).
Proof.
  unfold for_each.
  eapply emits_mono.
  - apply (emits_for_acc
             (λ done _ out,
                ∀ key, missing_key key ∈ out ↔ key ∈ done ∧ d !! key = None)).
    + intros key. rewrite !elem_of_nil. by split; [| intros []].
    + intros done x rest [] out _ Hinv.
      apply (emits_bind_lift _ (has_key d x)); [done |].
      apply emits_when; intros Hx; [apply emits_err |];
        intros key; rewrite ?app_nil_r, !elem_of_app, Hinv,
          ?list_elem_of_singleton;
        unfold has_key in Hx; destruct (d !! x) eqn:Ex; try done.
      * fold (missing_key x). split.
        -- intros [[? ?] | ->%missing_key_inj]; auto.
        -- intros [[? | ->] ?]; auto.
      * split; [intros [? ?]; auto |].
        intros [[? | ->] ?]; [auto | congruence].
  - done.
Qed.

(** The [phd_extract] block reports the key as missing exactly when
    [profile.get("phd_extract")] is [None]. *)
Lemma phd_missing_spec d :
  emits (check_phd_extract (JObj d))
    (λ _ out,
       missing_key (lit "phd_extract") ∈ out
       ↔ is_none (default JNull (d !! lit "phd_extract")) = true).
Proof.
  unfold check_phd_extract.
  apply (emits_bind_lift _ (default JNull (d !! lit "phd_extract"))); [done |].
  destruct (is_none _) eqn:En.
  { apply emits_err. split; [done |]. intros _.
    apply list_elem_of_singleton. vm_compute. reflexivity. }
  destruct (negb (isinstance_dict _)) eqn:Ed.
  { apply emits_err. split; [| done].
    intros H%list_elem_of_singleton. vm_compute in H. discriminate H. }
  destruct (default JNull (d !! lit "phd_extract")) as [| | | | | | pe];
    try discriminate.
  apply (emits_mono _ (λ _ out, Forall (from [lit "phd_extract"]) out)).
  - change (says (from [lit "phd_extract"])
              (source ← lift (py_get (JObj pe) (lit "source"));
               when (is_none source || negb (isinstance_dict source))
                 (_err (lit "phd_extract.source must be an object"));;
               for_each required_arrays (λ key,
                 value ← lift (py_get (JObj pe) key);
                 if is_none value then
                   _err (lit "phd_extract missing required key: " ++ key)
                 else
                   bad ← lift (or_else (negb (isinstance_list value))
                     (ok ← all_str value; mret (negb ok)));
                   when bad
                     (_err (lit "phd_extract." ++ key
                            ++ lit " must be an array of strings"))))).
    repeat says_step.
  - intros _ out Hout. split; [| done].
    intros Hin. exfalso. revert Hin.
    apply (not_in_output [lit "phd_extract"]); [done |].
    vm_compute. reflexivity.
Qed.

Lemma is_none_lookup d (k : pystr) :
  is_none (default JNull (d !! k)) = true ↔ d !! k = None ∨ d !! k = Some JNull.
Proof.
  destruct (d !! k) as [[]|]; simpl; split; try done; auto; by intros [|].
Qed.

(** (X3) Which keys [validate] reports as missing.  Of ["person"], ["i18n"]
    and ["projects"] (lines 32-34), those that are absent: a key mapped to
    [None] is present.  ["phd_extract"] (lines 112-114) also when it is mapped
    to [None]. *)
Theorem validate_missing_keys d :
  ∃ errors,
    validate lower (JObj d) = Returns errors
    ∧ (∀ key, key ∈ [lit "person"; lit "i18n"; lit "projects"] →
         missing_key key ∈ errors ↔ d !! key = None)
    ∧ (missing_key (lit "phd_extract") ∈ errors
       ↔ d !! lit "phd_extract" = None ∨ d !! lit "phd_extract" = Some JNull).
Proof.
  destruct (validate_blocks d) as (o & Hrun & Hfam & Hv).
  exists (all_outputs o). split; [done |].
  destruct Hrun as (R1 & _ & _ & _ & _ & R6 & _ & _).
  destruct Hfam as (F1 & F2 & F3 & F4 & F5 & F6 & F7 & F8).
  destruct (required_spec d [lit "person"; lit "i18n"; lit "projects"])
    as ([] & out1 & H1 & Hreq).
  destruct (runs_det _ _ _ _ _ R1 H1) as [_ E1].
  destruct (phd_missing_spec d) as ([] & out6 & H6 & Hphd).
  destruct (runs_det _ _ _ _ _ R6 H6) as [_ E6].
  split.
  - intros key Hkey. rewrite elem_of_all_outputs, E1, Hreq.
    split; [| by auto].
    intros [[_ ?] | Hother]; [done | exfalso].
    repeat match goal with
           | H : _ ∈ _ :: _ |- _ => apply elem_of_cons in H as [-> | H]
           | H : _ ∈ [] |- _ => by apply elem_of_nil in H
           end;
      repeat match goal with
             | H : _ ∨ _ |- _ => destruct H as [H | H]
             end;
      revert Hother;
      first [ by apply (not_in_output family_i18n)
            | by apply (not_in_output family_projects)
            | by apply (not_in_output family_contexts)
            | by apply (not_in_output family_reading)
            | by apply (not_in_output family_phd_extract)
            | by apply (not_in_output family_proof)
            | by apply (not_in_output family_bmi) ].
  - rewrite <- is_none_lookup, <- Hphd, <- E6, elem_of_all_outputs.
    split; [| by auto 7].
    intros Hin.
    repeat match goal with
           | H : _ ∨ _ |- _ => destruct H as [H | H]
           end; try done; exfalso; revert Hin;
      first [ by apply (not_in_output family_required)
            | by apply (not_in_output family_i18n)
            | by apply (not_in_output family_projects)
            | by apply (not_in_output family_contexts)
            | by apply (not_in_output family_reading)
            | by apply (not_in_output family_proof)
            | by apply (not_in_output family_bmi) ].
Qed.

(** Every message of the loop of lines 32-34 names a key that is absent. *)
Lemma required_shape d (keys : list pystr) :
  says (λ m, ∃ key, m = missing_key key ∧ key ∈ keys ∧ d !! key = None)
    (for_each keys (λ key,
       present ← lift (py_in key (JObj d));
       when (negb present)
         (_err (lit "Missing required top-level key: " ++ key)))).
Proof.
  apply says_for_each. intros key Hkey.
  apply (says_bind_lift _ _ (has_key d key)); [done |].
  apply says_when. intros Hk. apply says_err.
  exists key. split; [done |]. split; [done |].
  unfold has_key in Hk. by destruct (d !! key).
Qed.

(** The required keys give no message about ["i18n"] exactly when the key
    is there. *)
Lemma required_about_i18n d (out : list pystr) :
  runs (check_required_keys (JObj d)) () out →
  none_from about_i18n out ↔ has_key d (lit "i18n") = true.
Proof.
  intros R1.
  destruct (required_spec d [lit "person"; lit "i18n"; lit "projects"])
    as ([] & out1 & H1 & Hreq).
  destruct (runs_det _ _ _ _ _ R1 H1) as [_ <-].
  destruct (required_shape d [lit "person"; lit "i18n"; lit "projects"])
    as ([] & out2 & H2 & Hshape).
  destruct (runs_det _ _ _ _ _ R1 H2) as [_ <-].
  unfold none_from, has_key. split.
  - intros Hnone. destruct (d !! lit "i18n") eqn:Hd; [done |].
    assert (missing_key (lit "i18n") ∈ out) as Hin.
    { apply Hreq. split; [right; by left | done]. }
    rewrite Forall_forall in Hnone. specialize (Hnone _ Hin).
    vm_compute in Hnone. discriminate Hnone.
  - intros Hd. eapply Forall_impl; [exact Hshape |].
    intros m (key & -> & Hkey & Hnone).
    repeat match goal with
           | H : _ ∈ _ :: _ |- _ => apply elem_of_cons in H as [-> | H]
           | H : _ ∈ [] |- _ => by apply elem_of_nil in H
           end;
      first [by rewrite Hnone in Hd | vm_compute; reflexivity].
Qed.

(** (X4) The messages about ["i18n"] (lines 32-44).  Those of the [i18n]
    block, which start with ["i18n"], are absent from the result of
    [validate] exactly when ["i18n"] is absent or [None], or is an object
    whose ["en"] and ["it"] are both objects.  Counting the message of line
    34 for a missing ["i18n"] as well, [validate] reports nothing about
    ["i18n"] exactly when the key is there and maps to [None] or to such an
    object. *)
Theorem validate_i18n_messages d :
  ∃ errors,
    validate lower (JObj d) = Returns errors
    ∧ (none_from family_i18n errors ↔ i18n_ok d = true)
    ∧ (none_from about_i18n errors
       ↔ has_key d (lit "i18n") = true ∧ i18n_ok d = true).
Proof.
  destruct (validate_blocks d) as (o & Hrun & Hfam & Hv).
  exists (all_outputs o). split; [done |].
  destruct (blocks_clean d o Hrun) as (_ & <- & _).
  destruct Hrun as (R1 & _).
  destruct Hfam as (F1 & F2 & F3 & F4 & F5 & F6 & F7 & F8).
  split.
  - rewrite <- (none_from_own family_i18n (out_i18n o) F2). own_family.
  - assert (Forall (from about_i18n) (out_i18n o)) as F2'.
    { eapply Forall_impl; [exact F2 |]. intros m Hm.
      by apply (from_app_r [missing_key (lit "i18n")] family_i18n). }
    rewrite <- (none_from_own about_i18n (out_i18n o) F2').
    rewrite <- (required_about_i18n d (out_required o) R1).
    unfold all_outputs. rewrite !none_from_app. split.
    + by intros (? & ? & _).
    + intros [? ?]. split; [done |]. split; [done |].
      repeat split;
        (eapply none_from_other; [| eassumption]; vm_compute; reflexivity).
Qed.


(** ** Counting the ids *)

(** Every entry that registers an id either adds it to [seen_ids] or is
    reported as a duplicate. *)
Lemma projects_count_loop (ps : list value) :
  emits (for_acc (enumerate ps) ∅ check_project)
    (λ seen_ids out,
       seen_ids = list_to_set (omap registered_id ps)
       ∧ length (List.filter is_duplicate out) + size seen_ids
         = length (omap registered_id ps)).
Proof.
  eapply emits_mono.
  - apply (emits_for_acc (λ done seen_ids out,
      seen_ids = list_to_set (omap registered_id done.*2)
      ∧ length (List.filter is_duplicate out) + size seen_ids
        = length (omap registered_id done.*2))).
    + split; [done |]. by rewrite size_empty.
    + intros done [i p] rest seen_ids out _ (Hseen & Hcount).
      eapply emits_mono; [apply check_project_spec |].
      intros seen' out' (-> & Hdup' & _). simpl.
      rewrite fmap_app, !omap_app, List.filter_app, !length_app, Hdup'.
      rewrite list_to_set_app_L, <- Hseen. simpl.
      destruct (registered_id p) as [pid |]; simpl.
      * rewrite union_empty_r_L.
        destruct (decide (pid ∈ seen_ids)) as [Hin | Hout].
        -- rewrite bool_decide_true by done. simpl.
           assert ({[pid]} ∪ seen_ids = seen_ids) as ->.
           { apply subseteq_union_1_L. by apply singleton_subseteq_l. }
           split; [| lia].
           symmetry. rewrite union_comm_L.
           apply subseteq_union_1_L. by apply singleton_subseteq_l.
        -- rewrite bool_decide_false by done. simpl.
           split; [apply union_comm_L |].
           rewrite size_union by (by apply disjoint_singleton_l).
           rewrite size_singleton. lia.
      * rewrite union_empty_r_L. split; [done | lia].
  - intros seen_ids out Hinv. simpl in Hinv.
    assert ((enumerate ps).*2 = ps) as Hsnd.
    { unfold enumerate. apply snd_zip. by rewrite length_seq. }
    by rewrite Hsnd in Hinv.
Qed.

(** (X11) The ids are all accounted for (lines 55-61): the number of
    duplicate-id messages of [validate] plus the number of ids in the final
    [seen_ids] is the number of entries whose id is a string that is not
    blank. *)
Theorem validate_duplicates_count d (ps : list value) :
  d !! lit "projects" = Some (JArr ps) →
  ∃ errors seen_ids out,
    validate lower (JObj d) = Returns errors
    ∧ runs (check_projects (JObj d)) (JArr ps, seen_ids) out
    ∧ length (List.filter is_duplicate errors) + size seen_ids
      = length (omap registered_id ps).
Proof.
  intros Hd.
  destruct (validate_blocks d) as (o & Hrun & Hfam & Hv).
  assert (emits (check_projects (JObj d))
            (λ r out, r.1 = JArr ps
               ∧ length (List.filter is_duplicate out) + size r.2
                 = length (omap registered_id ps)))
    as ([v seen_ids] & out & Hout & Hv' & Hcount).
  { unfold check_projects.
    eapply emits_bind_lift; [unfold py_get; rewrite Hd; reflexivity |].
    cbn [default is_none isinstance_list negb andb].
    eapply emits_bind_lift; [reflexivity |].
    eapply emits_bind; [apply projects_count_loop |].
    intros seen_ids out (_ & Hcount). apply emits_ret.
    by rewrite app_nil_r. }
  simpl in Hv', Hcount. subst v.
  exists (all_outputs o), seen_ids, out.
  split; [done |]. split; [done |].
  destruct Hrun as (_ & _ & (seen' & R3) & _).
  destruct (runs_det _ _ _ _ _ R3 Hout) as [_ E3].
  by rewrite (filter_all_outputs o Hfam), E3.
Qed.

(** ** The command line *)

(** (X15) [main] ends with the OK line and the exit code 0 exactly when the
    file can be read, is well-formed UTF-8, parses ([json.loads]) to an object,
    and every block of [validate] accepts that object. *)
Theorem main_passes (file : option (list N)) :
  main lower decode file = Passed ↔
  ∃ bytes raw d,
    file = Some bytes ∧ utf8_decode bytes = Some raw
    ∧ json_loads decode raw = inr (JObj d) ∧ accepted lower d.
Proof.
  unfold main. split.
  - destruct file as [bytes |]; [| done].
    destruct (utf8_decode bytes) as [raw |] eqn:Hraw; [| done].
    destruct (json_loads decode raw) as [e | profile] eqn:Hjson; [done |].
    destruct profile as [| | | | | | d]; try done.
    destruct (validate lower (JObj d)) as [errors | e] eqn:Hv; [| done].
    destruct errors; [| done]. intros _.
    exists bytes, raw, d. split; [done |]. split; [done |].
    split; [done |]. by apply validate_nil.
  - intros (bytes & raw & d & -> & -> & -> & Hd%validate_nil).
    by rewrite Hd.
Qed.

(** ** The DoMoMEA item is required *)

Lemma says_domomea_number (idx : nat) (it : gmap (list N) value) :
  says (from [lit "DoMoMEA proof item #"]) (check_domomea_item (idx, JObj it)).
Proof. unfold check_domomea_item. repeat says_step. Qed.

Lemma proof_required_spec d :
  emits (check_proof lower (JObj d))
    (λ _ out,
       domomea_required ∈ out
       ↔ ∃ groups, proof_groups d = Some groups
                   ∧ domomea_items lower groups = []).
Proof.
  unfold check_proof, proof_groups.
  eapply emits_bind_lift; [reflexivity |].
  destruct (d !! lit "proof") as [[| | | | | | p] |]; simpl;
    try (eapply emits_bind_lift; [reflexivity |]; apply emits_ret;
         split; [by intros ?%elem_of_nil | by intros (? & [=] & _)]).
  unfold mbind at 2, result_bind. simpl.
  destruct (p !! lit "categories") as [[| | | | | groups |] |] eqn:Hp; simpl;
    try (eapply emits_bind_lift; [reflexivity |]; apply emits_ret;
         split; [by intros ?%elem_of_nil | by intros (? & [=] & _)]).
  eapply emits_bind_lift; [reflexivity |]. simpl.
  eapply emits_bind_lift; [reflexivity |].
  eapply emits_bind_lift; [reflexivity |].
  eapply (emits_bind _ _
            (λ items out, items = domomea_items lower groups ∧ out = [])).
  { exists (domomea_items lower groups), []. split; [| done].
    apply silent_runs, (silent_collect_groups groups []). }
  intros items out1 [-> ->]. simpl.
  destruct (truthy (domomea_items lower groups)) eqn:Ht; simpl.
  - apply (emits_mono _ (λ _ out,
             Forall (from [lit "DoMoMEA proof item #"]) out)).
    + apply says_for_each. intros [idx item] Hin.
      pose proof (domomea_items_dicts groups item
                    (elem_of_enumerate _ _ _ Hin)) as Hdict.
      destruct item; try discriminate. apply says_domomea_number.
    + intros _ out F. split.
      * intros Hin. elsewhere.
      * intros (? & [= <-] & Hnil). by rewrite Hnil in Ht.
  - apply emits_err. split.
    + intros _. exists groups. split; [done |].
      by destruct (domomea_items lower groups).
    + intros _. by apply list_elem_of_singleton.
Qed.

(** (X14) The DoMoMEA item is required only where the [proof] block looks
    (lines 138-155): [validate] asks for a DoMoMEA evidence item exactly when
    ["proof"] is an object whose ["categories"] is an array that holds no
    DoMoMEA item. *)
Theorem validate_domomea_required d :
  ∃ errors,
    validate lower (JObj d) = Returns errors
    ∧ (domomea_required ∈ errors
       ↔ ∃ groups, proof_groups d = Some groups
                   ∧ domomea_items lower groups = []).
Proof.
  destruct (validate_blocks d) as (o & Hrun & Hfam & Hv).
  exists (all_outputs o). split; [done |].
  destruct Hrun as (_ & _ & _ & _ & _ & _ & R7 & _).
  destruct Hfam as (F1 & F2 & F3 & F4 & F5 & F6 & F7 & F8).
  destruct (proof_required_spec d) as ([] & out7 & H7 & <-).
  destruct (runs_det _ _ _ _ _ R7 H7) as [_ <-].
  rewrite elem_of_all_outputs. split; [| by auto 9].
  intros Hin.
  repeat match goal with H : _ ∨ _ |- _ => destruct H as [H | H] end;
    try done; elsewhere.
Qed.


(** ** The index in a message *)

Lemma startswith_head (s p : pystr) :
  startswith s p = true → nondigit_head p = true → nondigit_head s = true.
Proof.
  destruct p as [| c p], s as [| b s]; simpl; try done.
  by intros [->%N.eqb_eq _]%andb_true_iff.
Qed.

(** The index of a message about an entry is the number it shows. *)
Lemma entry_message_index (i j : nat) (tails : list pystr) (rest m : pystr) :
  forallb nondigit_head tails = true → nondigit_head rest = true →
  entry_message i tails m → m = lit "projects[" ++ dec j ++ rest →
  i = j ∧ has_prefix_in tails rest = true.
Proof.
  intros Htails Hrest (rest1 & -> & Hp) E.
  apply app_inv_head in E.
  assert (nondigit_head rest1 = true) as H1.
  { unfold has_prefix_in in Hp. apply existsb_exists in Hp as (p & Hin & Hp).
    rewrite forallb_forall in Htails. by eapply startswith_head, Htails. }
  destruct rest1 as [| c1 t1]; [done |]. destruct rest as [| c2 t2]; [done |].
  simpl in H1, Hrest. apply negb_true_iff in H1, Hrest.
  destruct (dec_then_split i j t1 t2 c1 c2 H1 Hrest E) as [-> <-].
  done.
Qed.

Ltac about_entry :=
  cbv zeta; rewrite <- ?app_assoc;
  eexists; split; [reflexivity | in_family].

Lemma says_contained_entry (idx : nat) (e : gmap (list N) value) :
  says (entry_message idx [lit "].contained"]) (check_contained idx (JObj e)).
Proof. unfold check_contained. repeat says_step; about_entry. Qed.

Lemma says_spec_entry (idx : nat) (e : gmap (list N) value) :
  says (entry_message idx [lit "].spec"]) (check_spec idx (JObj e)).
Proof. unfold check_spec. repeat says_step; about_entry. Qed.

(** What the loop body says about the entry it checks, and that it says
    nothing about the other entries. *)
Lemma check_project_index (idx : nat) (p : value) (seen_ids : gset pystr) :
  emits (check_project (idx, p) seen_ids)
    (λ _ out,
       Forall (λ m, from family_duplicate m
                    ∨ entry_message idx
                        [lit "] must"; lit "].id"; lit "].contained";
                         lit "].spec"] m) out
       ∧ (not_object_message idx ∈ out ↔ isinstance_dict p = false)
       ∧ (id_message idx ∈ out
          ↔ isinstance_dict p = true ∧ registered_id p = None)).
Proof.
  assert (id_message idx ≠ not_object_message idx) as Hne.
  { unfold id_message, not_object_message.
    intros H. do 2 apply app_inv_head in H. vm_compute in H. discriminate H. }
  assert (∀ pid, duplicate_message pid ≠ not_object_message idx) as Hdn.
  { intros pid H. apply (f_equal head) in H. vm_compute in H. discriminate H. }
  assert (∀ pid, duplicate_message pid ≠ id_message idx) as Hdi.
  { intros pid H. apply (f_equal head) in H. vm_compute in H. discriminate H. }
  unfold check_project.
  destruct p as [| | | | | | e];
    try (simpl; apply emits_err_then, emits_ret; split; [| split];
         [ constructor; [right; about_entry | constructor]
         | split; [done | intros _; by apply list_elem_of_singleton]
         | split; [by intros ?%list_elem_of_singleton | by intros [? _]] ]).
  cbn [isinstance_dict negb].
  eapply emits_bind; [apply check_id_spec |].
  intros seen1 out1 H1.
  eapply emits_bind; [apply says_contained_entry |]. intros [] out2 H2.
  eapply emits_bind; [apply says_spec_entry |]. intros [] out3 H3.
  apply emits_ret. rewrite app_nil_r.
  assert (∀ rest, nondigit_head rest = true →
            has_prefix_in [lit "].contained"] rest = false →
            has_prefix_in [lit "].spec"] rest = false →
            lit "projects[" ++ dec idx ++ rest ∉ out2 ++ out3) as Hrest.
  { intros rest Hhead Hc Hs [Hin | Hin]%elem_of_app.
    - rewrite Forall_forall in H2.
      destruct (entry_message_index idx idx [lit "].contained"] rest
                  (lit "projects[" ++ dec idx ++ rest)) as [_ ?];
        [by vm_compute | done | by apply H2 | done | congruence].
    - rewrite Forall_forall in H3.
      destruct (entry_message_index idx idx [lit "].spec"] rest
                  (lit "projects[" ++ dec idx ++ rest)) as [_ ?];
        [by vm_compute | done | by apply H3 | done | congruence]. }
  assert (not_object_message idx ∉ out2 ++ out3) as Hn23.
  { apply Hrest; vm_compute; reflexivity. }
  assert (id_message idx ∉ out2 ++ out3) as Hi23.
  { apply Hrest; vm_compute; reflexivity. }
  assert (Forall (λ m, from family_duplicate m
                       ∨ entry_message idx
                           [lit "] must"; lit "].id"; lit "].contained";
                            lit "].spec"] m) (out2 ++ out3)) as F23.
  { apply Forall_app. split.
    - eapply Forall_impl; [exact H2 |].
      intros m (rest & -> & Hp). right. exists rest. split; [done |].
      unfold has_prefix_in in *. simpl in *.
      rewrite orb_false_r in Hp. rewrite Hp. by rewrite !orb_true_r.
    - eapply Forall_impl; [exact H3 |].
      intros m (rest & -> & Hp). right. exists rest. split; [done |].
      unfold has_prefix_in in *. simpl in *.
      rewrite orb_false_r in Hp. rewrite Hp. by rewrite !orb_true_r. }
  rewrite !elem_of_app in *.
  destruct (registered_id (JObj e)) as [pid |].
  - destruct (bool_decide (pid ∈ seen_ids)); destruct H1 as [-> ->].
    + split; [| split].
      * constructor; [| done]. left. apply is_duplicate_message.
      * rewrite list_elem_of_singleton. split; [| done].
        intros [? | ?]; [by destruct (Hdn pid) | by destruct Hn23].
      * rewrite list_elem_of_singleton. split; [| by intros [_ ?]].
        intros [? | ?]; [by destruct (Hdi pid) | by destruct Hi23].
    + split; [done |]. split.
      * split; [| done]. intros [?%elem_of_nil | ?]; [done | by destruct Hn23].
      * split; [| by intros [_ ?]].
        intros [?%elem_of_nil | ?]; [done | by destruct Hi23].
  - destruct H1 as [-> ->]. split; [| split].
    + constructor; [| done]. right. unfold id_message. about_entry.
    + rewrite list_elem_of_singleton. split; [| done].
      intros [? | ?]; [by destruct Hne | by destruct Hn23].
    + split; [done |]. intros _. left. by apply list_elem_of_singleton.
Qed.

Lemma elem_of_enumerate_iff {A} (l : list A) (i : nat) (x : A) :
  (i, x) ∈ enumerate l ↔ l !! i = Some x.
Proof.
  split; [apply elem_of_enumerate_lookup |].
  intros Hi. apply list_elem_of_lookup. exists i.
  unfold enumerate. apply lookup_zip_with_Some. exists i, x.
  split; [done |]. split; [| done].
  apply lookup_seq. split; [done |]. by eapply lookup_lt_Some.
Qed.

(** A message of the loop body about entry [i] comes from the turn of the
    loop on entry [i]. *)
Lemma entry_message_turn (i j : nat) (tails : list pystr) (rest : pystr)
    (out : list pystr) :
  forallb nondigit_head tails = true → nondigit_head rest = true →
  Forall (λ m, from family_duplicate m ∨ entry_message j tails m) out →
  lit "projects[" ++ dec i ++ rest ∈ out → i = j.
Proof.
  intros Htails Hrest Hout Hin. rewrite Forall_forall in Hout.
  destruct (Hout _ Hin) as [Hdup | Hentry].
  - exfalso. unfold from in Hdup.
    rewrite (apart_sound family_indexed family_duplicate) in Hdup;
      [done | by vm_compute | apply from_indexed].
  - by destruct (entry_message_index j i tails rest _ Htails Hrest Hentry
                   eq_refl) as [-> _].
Qed.

(** The loop rule for a message of the body that shows the index: when the
    turn on entry [idx] appends [projects[idx]rest] exactly for the entries
    that satisfy [C], the loop appends [projects[i]rest] exactly when entry
    [i] satisfies [C]. *)
Lemma projects_loop_index (rest : pystr) (C : value → Prop)
    (tails : list pystr) (ps : list value) :
  forallb nondigit_head tails = true → nondigit_head rest = true →
  (∀ idx p seen_ids,
     emits (check_project (idx, p) seen_ids)
       (λ _ out,
          Forall (λ m, from family_duplicate m ∨ entry_message idx tails m) out
          ∧ (lit "projects[" ++ dec idx ++ rest ∈ out ↔ C p))) →
  emits (for_acc (enumerate ps) ∅ check_project)
    (λ _ out, ∀ i,
       lit "projects[" ++ dec i ++ rest ∈ out
       ↔ ∃ v, ps !! i = Some v ∧ C v).
Proof.
  intros Htails Hrest Hbody.
  eapply emits_mono.
  - apply (emits_for_acc (λ done (_ : gset pystr) out,
      ∀ i, lit "projects[" ++ dec i ++ rest ∈ out
           ↔ ∃ v, (i, v) ∈ done ∧ C v)).
    + intros i. split; [by intros ?%elem_of_nil |].
      by intros (v & ?%elem_of_nil & _).
    + intros done [j p] tl seen_ids out _ Hinv.
      eapply emits_mono; [apply Hbody |].
      intros seen' out' (Hout' & Hj) i. simpl.
      rewrite elem_of_app, Hinv. split.
      * intros [(v & Hv & HC) | Hin].
        -- exists v. split; [| done]. apply elem_of_app. by left.
        -- assert (i = j) as -> by (by eapply entry_message_turn).
           exists p. split; [| by apply Hj].
           apply elem_of_app. right. by apply list_elem_of_singleton.
      * intros (v & [Hv | Hv]%elem_of_app & HC).
        -- left. by exists v.
        -- apply list_elem_of_singleton in Hv. injection Hv as -> ->.
           right. by apply Hj.
  - intros seen_ids out Hinv i. simpl in Hinv. rewrite Hinv.
    by setoid_rewrite elem_of_enumerate_iff.
Qed.

(** The same for the whole result of [validate]. *)
Lemma validate_index (rest : pystr) (C : value → Prop) (tails : list pystr)
    d (ps : list value) :
  forallb nondigit_head tails = true → nondigit_head rest = true →
  (∀ idx p seen_ids,
     emits (check_project (idx, p) seen_ids)
       (λ _ out,
          Forall (λ m, from family_duplicate m ∨ entry_message idx tails m) out
          ∧ (lit "projects[" ++ dec idx ++ rest ∈ out ↔ C p))) →
  d !! lit "projects" = Some (JArr ps) →
  ∃ errors,
    validate lower (JObj d) = Returns errors
    ∧ ∀ i, lit "projects[" ++ dec i ++ rest ∈ errors
           ↔ ∃ v, ps !! i = Some v ∧ C v.
Proof.
  intros Htails Hrest Hbody Hd.
  destruct (validate_blocks d) as (o & Hrun & Hfam & Hv).
  exists (all_outputs o). split; [done |]. intros i.
  assert (emits (check_projects (JObj d))
            (λ _ out, ∀ i, lit "projects[" ++ dec i ++ rest ∈ out
                           ↔ ∃ v, ps !! i = Some v ∧ C v))
    as (r & out & Hout & <-).
  { unfold check_projects.
    eapply emits_bind_lift; [unfold py_get; rewrite Hd; reflexivity |].
    cbn [default is_none isinstance_list negb andb].
    eapply emits_bind_lift; [reflexivity |].
    eapply emits_bind; [by apply (projects_loop_index rest C tails) |].
    intros seen_ids out Hout. apply emits_ret. by rewrite app_nil_r. }
  destruct Hrun as (_ & _ & (seen' & R3) & _).
  destruct (runs_det _ _ _ _ _ R3 Hout) as [_ <-].
  destruct Hfam as (F1 & F2 & F3 & F4 & F5 & F6 & F7 & F8).
  rewrite elem_of_all_outputs. split; [| by auto 9].
  intros Hin.
  repeat match goal with H : _ ∨ _ |- _ => destruct H as [H | H] end;
    try done; exfalso; revert Hin;
    first [ by apply (foreign family_indexed family_required);
              [vm_compute | apply from_indexed |]
          | by apply (foreign family_indexed family_i18n);
              [vm_compute | apply from_indexed |]
          | by apply (foreign family_indexed family_contexts);
              [vm_compute | apply from_indexed |]
          | by apply (foreign family_indexed family_reading);
              [vm_compute | apply from_indexed |]
          | by apply (foreign family_indexed family_phd_extract);
              [vm_compute | apply from_indexed |]
          | by apply (foreign family_indexed family_proof);
              [vm_compute | apply from_indexed |]
          | by apply (foreign family_indexed family_bmi);
              [vm_compute | apply from_indexed |] ].
Qed.

(** (X12) The index in [projects[i] must be an object] (lines 51-54) is the
    position of the entry: the message is in the result of [validate]
    exactly when entry [i] of ["projects"] exists and is not an object. *)
Theorem validate_entry_not_object d (ps : list value) :
  d !! lit "projects" = Some (JArr ps) →
  ∃ errors,
    validate lower (JObj d) = Returns errors
    ∧ ∀ i, not_object_message i ∈ errors
           ↔ ∃ v, ps !! i = Some v ∧ isinstance_dict v = false.
Proof.
  apply (validate_index (lit "] must be an object")
           (λ v, isinstance_dict v = false)
           [lit "] must"; lit "].id"; lit "].contained"; lit "].spec"]);
    [by vm_compute | by vm_compute |].
  intros idx p seen_ids.
  eapply emits_mono; [apply check_project_index |].
  by intros ? out (? & ? & _).
Qed.

(** (X13) The index in [projects[i].id must be a non-empty string] (lines
    55-57) is the position of the entry: the message is in the result of
    [validate] exactly when entry [i] of ["projects"] is an object whose
    ["id"] is not a string or is blank. *)
Theorem validate_entry_id d (ps : list value) :
  d !! lit "projects" = Some (JArr ps) →
  ∃ errors,
    validate lower (JObj d) = Returns errors
    ∧ ∀ i, id_message i ∈ errors
           ↔ ∃ v, ps !! i = Some v
                  ∧ isinstance_dict v = true ∧ registered_id v = None.
Proof.
  apply (validate_index (lit "].id must be a non-empty string")
           (λ v, isinstance_dict v = true ∧ registered_id v = None)
           [lit "] must"; lit "].id"; lit "].contained"; lit "].spec"]);
    [by vm_compute | by vm_compute |].
  intros idx p seen_ids.
  eapply emits_mono; [apply check_project_index |].
  by intros ? out (? & _ & ?).
Qed.


(** ** What [validate] reads *)

(** (X17) [validate] reads seven keys of the root object and nothing else,
    and of ["person"] only whether it is there: two objects that agree on
    the presence of ["person"] and on what ["i18n"], ["projects"],
    ["contexts"], ["reading"], ["phd_extract"] and ["proof"] map to get the
    same result. *)
Theorem validate_reads_seven_keys d d' :
  has_key d (lit "person") = has_key d' (lit "person") →
  Forall (λ key, d !! key = d' !! key)
    [lit "i18n"; lit "projects"; lit "contexts"; lit "reading";
     lit "phd_extract"; lit "proof"] →
  validate lower (JObj d) = validate lower (JObj d').
Proof.
  intros Hperson Hkeys.
  repeat match goal with
         | H : Forall _ (_ :: _) |- _ => apply Forall_cons in H as [? H]
         end.
  assert (checks lower (JObj d) = checks lower (JObj d')) as Hchecks.
  { unfold checks, check_required_keys, check_i18n, check_projects,
      check_contexts, check_reading, check_phd_extract, check_proof,
      for_each.
    cbn [for_acc py_get py_in]. rewrite Hperson. unfold has_key.
    by repeat match goal with H : d !! _ = _ |- _ => rewrite H; clear H end. }
  unfold validate. cbn [isinstance_dict negb]. by rewrite Hchecks.
Qed.


(** ** The sections are independent *)

Lemma filter_own (f : list pystr) (out : list pystr) :
  Forall (from f) out → List.filter (has_prefix_in f) out = out.
Proof.
  induction 1 as [| m out Hm _ IH]; simpl; [done |].
  unfold from in Hm. by rewrite Hm, IH.
Qed.

Lemma filter_other (g f : list pystr) (out : list pystr) :
  apart g f = true → Forall (from g) out →
  List.filter (has_prefix_in f) out = [].
Proof.
  intros Hap. induction 1 as [| m out Hm _ IH]; simpl; [done |].
  by rewrite (apart_sound g f m Hap Hm).
Qed.

(** The messages of a family in the whole result are those of its block. *)
Ltac sift :=
  unfold messages_from, all_outputs; rewrite !List.filter_app;
  repeat match goal with
         | F : Forall (from ?g) ?out
           |- context [List.filter (has_prefix_in ?f) ?out] =>
             first [ rewrite (filter_own f out F)
                   | rewrite (filter_other g f out)
                       by first [vm_compute; reflexivity | assumption] ]
         end;
  rewrite ?app_nil_r; simpl.

Lemma messages_from_sections (o : outputs) :
  in_families o →
  messages_from family_i18n (all_outputs o) = out_i18n o
  ∧ messages_from (family_projects ++ family_bmi) (all_outputs o)
    = out_projects o ++ out_bmi o
  ∧ messages_from family_contexts (all_outputs o) = out_contexts o
  ∧ messages_from family_reading (all_outputs o) = out_reading o
  ∧ messages_from family_phd_extract (all_outputs o) = out_phd_extract o
  ∧ messages_from family_proof (all_outputs o) = out_proof o.
Proof.
  intros (F1 & F2 & F3 & F4 & F5 & F6 & F7 & F8).
  assert (Forall (from (family_projects ++ family_bmi)) (out_projects o))
    as F3' by (eapply Forall_impl; [exact F3 | apply from_app_l]).
  assert (Forall (from (family_projects ++ family_bmi)) (out_bmi o))
    as F8' by (eapply Forall_impl; [exact F8 | apply from_app_r]).
  repeat split.
  - by sift.
  - clear F3 F8. by sift.
  - by sift.
  - by sift.
  - by sift.
  - by sift.
Qed.

(** (X18) The sections of the document are checked independently: the
    messages about one section depend on what its key maps to and on nothing
    else in the document. *)
Theorem validate_sections_independent d d' (key : pystr)
    (family : list pystr) :
  (key, family) ∈ sections → d !! key = d' !! key →
  ∃ errors errors',
    validate lower (JObj d) = Returns errors
    ∧ validate lower (JObj d') = Returns errors'
    ∧ messages_from family errors = messages_from family errors'.
Proof.
  intros Hsection Hkey.
  destruct (validate_blocks d) as (o & Hrun & Hfam & Hv).
  destruct (validate_blocks d') as (o' & Hrun' & Hfam' & Hv').
  exists (all_outputs o), (all_outputs o'). split; [done |]. split; [done |].
  destruct (messages_from_sections o Hfam) as (E2 & E3 & E4 & E5 & E6 & E7).
  destruct (messages_from_sections o' Hfam')
    as (E2' & E3' & E4' & E5' & E6' & E7').
  destruct Hrun as (_ & R2 & (s3 & R3) & R4 & R5 & R6 & R7 & R8).
  destruct Hrun' as (_ & R2' & (s3' & R3') & R4' & R5' & R6' & R7' & R8').
  unfold sections in Hsection.
  repeat match goal with
         | H : _ ∈ _ :: _ |- _ => apply elem_of_cons in H as [[= -> ->] | H]
         | H : _ ∈ [] |- _ => by apply elem_of_nil in H
         end.
  - etrans; [exact E2 |]. etrans; [| symmetry; exact E2'].
    assert (check_i18n (JObj d) = check_i18n (JObj d')) as E
      by (unfold check_i18n; cbn [py_get]; by rewrite Hkey).
    rewrite E in R2. by destruct (runs_det _ _ _ _ _ R2 R2').
  - etrans; [exact E3 |]. etrans; [| symmetry; exact E3'].
    assert (check_projects (JObj d) = check_projects (JObj d')) as E
      by (unfold check_projects; cbn [py_get]; by rewrite Hkey).
    assert (projects_of d = projects_of d') as E'
      by (unfold projects_of; by rewrite Hkey).
    rewrite E in R3. rewrite E' in R3, R8.
    destruct (runs_det _ _ _ _ _ R3 R3') as [_ ->].
    by destruct (runs_det _ _ _ _ _ R8 R8') as [_ ->].
  - etrans; [exact E4 |]. etrans; [| symmetry; exact E4'].
    assert (check_contexts (JObj d) = check_contexts (JObj d')) as E
      by (unfold check_contexts; cbn [py_get]; by rewrite Hkey).
    rewrite E in R4. by destruct (runs_det _ _ _ _ _ R4 R4').
  - etrans; [exact E5 |]. etrans; [| symmetry; exact E5'].
    assert (check_reading (JObj d) = check_reading (JObj d')) as E
      by (unfold check_reading; cbn [py_get]; by rewrite Hkey).
    rewrite E in R5. by destruct (runs_det _ _ _ _ _ R5 R5').
  - etrans; [exact E6 |]. etrans; [| symmetry; exact E6'].
    assert (check_phd_extract (JObj d) = check_phd_extract (JObj d')) as E
      by (unfold check_phd_extract; cbn [py_get]; by rewrite Hkey).
    rewrite E in R6. by destruct (runs_det _ _ _ _ _ R6 R6').
  - etrans; [exact E7 |]. etrans; [| symmetry; exact E7'].
    assert (check_proof lower (JObj d) = check_proof lower (JObj d')) as E
      by (unfold check_proof; cbn [py_get]; by rewrite Hkey).
    rewrite E in R7. by destruct (runs_det _ _ _ _ _ R7 R7').
Qed.


(** (X19) No file that starts with a UTF-8 byte-order mark reaches
    [validate], whatever follows the mark: [main] either dies of the
    [UnicodeDecodeError] of the bytes after the mark or reports invalid JSON
    for the mark itself. *)
Theorem main_bom_never_validated (bytes : list N) :
  main lower decode (Some (239 :: 187 :: 191 :: bytes))%N
  = match utf8_decode bytes with
    | Some _ => InvalidJSON bom_refused
    | None => NotDecoded
    end.
Proof.
  destruct (utf8_decode bytes) as [text |] eqn:Hbytes.
  - by apply (main_bom_invalid bytes text).
  - unfold main.
    change (utf8_decode (239 :: 187 :: 191 :: bytes)%N)
      with (cons 65279%N <$> utf8_decode bytes).
    by rewrite Hbytes.
Qed.

End Properties.

(** * The properties on documents

    The properties above applied to explicit documents, with [ascii_lower]
    for [str.lower], and the documents on which a property does not hold as
    it was first stated. *)

(** C6 as stated fails on a string: [_is_localized("hello")] is false. *)
Lemma is_localized_string_false :
  _is_localized (JStr (lit "hello")) = Returns false.
Proof. reflexivity. Qed.

(** The keys only have to be present: [{"en": 3}] is localized. *)
Example is_localized_presence_only :
  _is_localized (obj [(lit "en", JInt 3)]) = Returns true.
Proof. vm_compute. reflexivity. Qed.

(** C5 at work: the wrong shapes of [malformed_document] are reported one
    after the other, and the checks go on after each. *)
Example validate_malformed_document :
  validate ascii_lower malformed_document
  = Returns
      [lit "Missing required top-level key: person";
       lit "i18n must be an object";
       lit "projects[0] must be an object";
       lit "projects[1].id must be a non-empty string";
       lit "projects[1].contained must be an array";
       lit "projects[1].spec must be an object";
       lit "contexts must be an object";
       lit "reading must be an object";
       lit "phd_extract.source must be an object";
       lit "phd_extract missing required key: research_objective";
       lit "phd_extract missing required key: architecture_stack";
       lit "phd_extract.innovation must be an array of strings";
       lit "phd_extract missing required key: validation_plan";
       lit "phd_extract missing required key: engineering_challenges";
       lit "phd_extract missing required key: dissemination";
       lit "phd_extract missing required key: training_teaching";
       lit "DoMoMEA proof item #1 bullets must be an array of strings";
       lit "DoMoMEA proof item #1 source must be a string or localized object";
       lit "projects must include id=bmi"].
Proof. vm_compute. reflexivity. Qed.

(** C1 on the array [[]]. *)
Lemma validate_root_not_object_witness :
  isinstance_dict (JArr []) = false
  ∧ validate ascii_lower (JArr []) = Returns [root_message].
Proof.
  split; [reflexivity |].
  apply (validate_root_not_object ascii_lower (JArr [])). reflexivity.
Defined.

(** Deciding that a message is not in a given list. *)
Ltac not_in_list :=
  let H := fresh in
  intros H;
  repeat (apply elem_of_cons in H as [H | H];
          [vm_compute in H; discriminate H |]);
  by apply elem_of_nil in H.

(** C2 as stated fails when ["projects"] is absent: the requirement is then
    not reported. *)
Lemma validate_no_projects_no_bmi_message :
  let errors := [lit "Missing required top-level key: person";
                 lit "Missing required top-level key: i18n";
                 lit "Missing required top-level key: projects";
                 lit "Missing required top-level key: phd_extract"] in
  validate ascii_lower (obj []) = Returns errors ∧ bmi_required ∉ errors.
Proof. split; [vm_compute; reflexivity | not_in_list]. Qed.

(** Nor is it reported when ["projects"] is not an array. *)
Example validate_projects_not_array :
  let errors := [lit "Missing required top-level key: person";
                 lit "Missing required top-level key: i18n";
                 lit "projects must be an array";
                 lit "Missing required top-level key: phd_extract"] in
  validate ascii_lower (obj [(lit "projects", JStr (lit "none"))])
  = Returns errors ∧ bmi_required ∉ errors.
Proof. split; [vm_compute; reflexivity | not_in_list]. Qed.

(** C2 on [{"projects": [{"id": "other"}]}]. *)
Lemma validate_requires_bmi_witness :
  ∃ errors,
    validate ascii_lower
      (obj [(lit "projects", JArr [obj [(lit "id", JStr (lit "other"))]])])
    = Returns errors ∧ bmi_required ∈ errors.
Proof.
  destruct (validate_requires_bmi ascii_lower
              (list_to_map
                 [(lit "projects",
                   JArr [obj [(lit "id", JStr (lit "other"))]])]))
    as (errors & Hv & Hiff).
  exists errors. split; [exact Hv |].
  apply Hiff. exists [obj [(lit "id", JStr (lit "other"))]].
  split; [vm_compute; reflexivity | repeat constructor].
Defined.

(** C8 on a document whose ["proof"] is a string. *)
Lemma validate_skips_proof_witness :
  ∃ errors,
    validate ascii_lower (obj [(lit "proof", JStr (lit "none"))])
    = Returns errors
    ∧ runs (check_proof ascii_lower (obj [(lit "proof", JStr (lit "none"))]))
        () []
    ∧ Forall (λ m, proof_message m = false) errors.
Proof.
  apply (validate_skips_proof ascii_lower).
  right. left. exists (JStr (lit "none")). split; vm_compute; reflexivity.
Defined.

(** C10 on [{"phd_extract": {"innovation": null}}]. *)
Lemma validate_phd_null_key_witness :
  ∃ errors,
    validate ascii_lower
      (obj [(lit "phd_extract", obj [(lit "innovation", JNull)])])
    = Returns errors
    ∧ phd_missing_key (lit "innovation") ∈ errors
    ∧ phd_not_strings (lit "innovation") ∉ errors.
Proof.
  apply (validate_phd_null_key ascii_lower _
           (list_to_map [(lit "innovation", JNull)])).
  - vm_compute. reflexivity.
  - unfold required_arrays. do 2 right. left.
  - right. vm_compute. reflexivity.
Defined.

(** C3 as stated fails for an id that is not empty but blank: two entries
    sharing the id [" "] give no duplicate-id message; each is reported for
    its id instead. *)
Lemma validate_blank_ids_not_duplicates :
  let p := obj [(lit "id", JStr (lit " "))] in
  let errors := [lit "Missing required top-level key: person";
                 lit "Missing required top-level key: i18n";
                 lit "projects[0].id must be a non-empty string";
                 lit "projects[1].id must be a non-empty string";
                 lit "Missing required top-level key: phd_extract";
                 lit "projects must include id=bmi"] in
  validate ascii_lower (obj [(lit "projects", JArr [p; p])]) = Returns errors
  ∧ List.filter is_duplicate errors = [].
Proof. split; vm_compute; reflexivity. Qed.

(** C3 on [{"projects": [{"id": "a"}, {"id": "a"}]}]. *)
Lemma validate_duplicate_ids_witness :
  let p := obj [(lit "id", JStr (lit "a"))] in
  ∃ errors,
    validate ascii_lower (obj [(lit "projects", JArr [p; p])]) = Returns errors
    ∧ List.filter is_duplicate errors = [duplicate_message (lit "a")].
Proof.
  intros p.
  destruct (validate_duplicate_ids ascii_lower
              (list_to_map [(lit "projects", JArr [p; p])]) [p; p])
    as (errors & Hv & _ & Htwo).
  - vm_compute. reflexivity.
  - exists errors. split; [exact Hv |].
    apply (Htwo p p (lit "a")); vm_compute; reflexivity.
Defined.

(** C9 on [{"projects": [{"id": " \t"}]}]. *)
Lemma validate_blank_id_witness :
  let p := obj [(lit "id", JStr [32; 9]%N)] in
  ∃ errors seen_ids out,
    validate ascii_lower (obj [(lit "projects", JArr [p])]) = Returns errors
    ∧ id_message 0 ∈ errors
    ∧ runs (check_projects (obj [(lit "projects", JArr [p])]))
        (JArr [p], seen_ids) out
    ∧ ([32; 9]%N ∉ seen_ids)
    ∧ (∀ s, s ∈ seen_ids → forallb isspace s = false).
Proof.
  intros p.
  apply (validate_blank_id ascii_lower
           (list_to_map [(lit "projects", JArr [p])]) [p] 0
           (list_to_map [(lit "id", JStr [32; 9]%N)]) [32; 9]%N);
    vm_compute; reflexivity.
Defined.

(** The 4-8 bound on 3, 4, ..., 9 bullets. *)
Example bmi_bounds_inclusive :
  (λ n, reports (validate ascii_lower (bmi_document n)) bmi_bounds)
    <$> [3; 4; 5; 6; 7; 8; 9]
  = [true; false; false; false; false; false; true].
Proof. vm_compute. reflexivity. Qed.

(** The 6-10 bound on 5, 6, ..., 11 bullets. *)
Example domomea_bounds_inclusive :
  (λ n, reports (validate ascii_lower (domomea_document n)) (domomea_bounds 1))
    <$> [5; 6; 7; 8; 9; 10; 11]
  = [true; false; false; false; false; false; true].
Proof. vm_compute. reflexivity. Qed.


(** X1 on [accepted_document]. *)
Lemma validate_accepts_witness :
  ∃ d, accepted_document = JObj d ∧ accepted ascii_lower d.
Proof.
  apply (validate_accepts ascii_lower accepted_document).
  vm_compute. reflexivity.
Defined.

(** X3 on [{"person": null, "phd_extract": null}]: ["person"] is there,
    ["i18n"] is not, and ["phd_extract"] is reported although it is there. *)
Lemma validate_missing_keys_witness :
  ∃ errors,
    validate ascii_lower
      (obj [(lit "person", JNull); (lit "phd_extract", JNull)])
    = Returns errors
    ∧ (missing_key (lit "person") ∉ errors)
    ∧ missing_key (lit "i18n") ∈ errors
    ∧ missing_key (lit "phd_extract") ∈ errors.
Proof.
  destruct (validate_missing_keys ascii_lower
              (list_to_map [(lit "person", JNull);
                            (lit "phd_extract", JNull)]))
    as (errors & Hv & Hkeys & Hphd).
  exists errors. split; [exact Hv |]. split; [| split].
  - intros H. apply (Hkeys (lit "person")) in H; [| by left].
    vm_compute in H. discriminate H.
  - apply (Hkeys (lit "i18n")); [right; by left |].
    vm_compute. reflexivity.
  - apply Hphd. right. vm_compute. reflexivity.
Defined.

(** X11 on the ids ["a"], ["a"], ["b"] and a blank one. *)
Lemma validate_duplicates_count_witness :
  let a := obj [(lit "id", JStr (lit "a"))] in
  let b := obj [(lit "id", JStr (lit "b"))] in
  let blank := obj [(lit "id", JStr (lit " "))] in
  ∃ errors seen_ids out,
    validate ascii_lower (obj [(lit "projects", JArr [a; a; blank; b])])
    = Returns errors
    ∧ runs (check_projects (obj [(lit "projects", JArr [a; a; blank; b])]))
        (JArr [a; a; blank; b], seen_ids) out
    ∧ length (List.filter is_duplicate errors) + size seen_ids
      = length (omap registered_id [a; a; blank; b]).
Proof.
  intros a b blank.
  apply (validate_duplicates_count ascii_lower
           (list_to_map [(lit "projects", JArr [a; a; blank; b])])
           [a; a; blank; b]).
  vm_compute. reflexivity.
Defined.

(** X12 on [{"projects": [null, {}]}]. *)
Lemma validate_entry_not_object_witness :
  ∃ errors,
    validate ascii_lower (obj [(lit "projects", JArr [JNull; obj []])])
    = Returns errors
    ∧ not_object_message 0 ∈ errors ∧ not_object_message 1 ∉ errors.
Proof.
  destruct (validate_entry_not_object ascii_lower
              (list_to_map [(lit "projects", JArr [JNull; obj []])])
              [JNull; obj []])
    as (errors & Hv & Hi); [vm_compute; reflexivity |].
  exists errors. split; [exact Hv |]. split.
  - apply Hi. exists JNull. split; reflexivity.
  - intros H. apply Hi in H as (v & Hv' & Hd).
    simpl in Hv'. injection Hv' as <-. discriminate Hd.
Defined.

(** X13 on [{"projects": [{"id": 5}, {"id": "a"}]}]. *)
Lemma validate_entry_id_witness :
  let p := obj [(lit "id", JInt 5)] in
  let q := obj [(lit "id", JStr (lit "a"))] in
  ∃ errors,
    validate ascii_lower (obj [(lit "projects", JArr [p; q])])
    = Returns errors
    ∧ id_message 0 ∈ errors ∧ id_message 1 ∉ errors.
Proof.
  intros p q.
  destruct (validate_entry_id ascii_lower
              (list_to_map [(lit "projects", JArr [p; q])]) [p; q])
    as (errors & Hv & Hi); [vm_compute; reflexivity |].
  exists errors. split; [exact Hv |]. split.
  - apply Hi. exists p. split; [reflexivity |].
    split; vm_compute; reflexivity.
  - intros H. apply Hi in H as (v & Hv' & _ & Hid).
    simpl in Hv'. injection Hv' as <-. vm_compute in Hid. discriminate Hid.
Defined.

(** X15 on a file that parses to [accepted_document]. *)
Lemma main_passes_witness :
  let decode := λ _ : pystr, inr accepted_document in
  ∃ bytes raw d,
    Some [123; 125]%N = Some bytes ∧ utf8_decode bytes = Some raw
    ∧ json_loads decode raw = inr (JObj d) ∧ accepted ascii_lower d.
Proof.
  intros decode.
  apply (main_passes ascii_lower decode (Some [123; 125]%N)).
  vm_compute. reflexivity.
Defined.

(** X17: the value of ["person"] and a key that no block reads make no
    difference. *)
Lemma validate_reads_seven_keys_witness :
  validate ascii_lower
    (obj [(lit "person", JInt 1); (lit "nickname", JStr (lit "az"))])
  = validate ascii_lower (obj [(lit "person", JNull)]).
Proof.
  apply (validate_reads_seven_keys ascii_lower
           (list_to_map [(lit "person", JInt 1);
                         (lit "nickname", JStr (lit "az"))])
           (list_to_map [(lit "person", JNull)])).
  - vm_compute. reflexivity.
  - repeat (apply Forall_cons; split; [vm_compute; reflexivity |]).
    by apply Forall_nil.
Defined.

(** X18: a wrong ["contexts"] does not change the messages about
    ["reading"]. *)
Lemma validate_sections_independent_witness :
  ∃ errors errors',
    validate ascii_lower
      (obj [(lit "reading", JInt 3); (lit "contexts", JInt 4)])
    = Returns errors
    ∧ validate ascii_lower (obj [(lit "reading", JInt 3)]) = Returns errors'
    ∧ messages_from family_reading errors
      = messages_from family_reading errors'.
Proof.
  apply (validate_sections_independent ascii_lower
           (list_to_map [(lit "reading", JInt 3); (lit "contexts", JInt 4)])
           (list_to_map [(lit "reading", JInt 3)])
           (lit "reading") family_reading).
  - unfold sections. do 3 right. left.
  - vm_compute. reflexivity.
Defined.



(** X2: a message of the [i18n] block does not start like a message about
    ["contexts"]. *)
Lemma validate_message_order_witness :
  ¬ from family_contexts (lit "i18n must be an object").
Proof.
  destruct (validate_message_order ascii_lower ∅)
    as (r & i & p & c & rd & ph & pr & b & _ & _ & _ & _ & _ & _ & _ & _ & _
        & Hapart).
  apply (Hapart 1 3 family_i18n family_contexts);
    [reflexivity | reflexivity | discriminate | vm_compute; reflexivity].
Defined.

(** X4 on [{"i18n": null}] and on [{}]: nothing is reported about ["i18n"]
    in the first, the missing key in the second. *)
Lemma validate_i18n_messages_witness :
  (∃ errors,
     validate ascii_lower (obj [(lit "i18n", JNull)]) = Returns errors
     ∧ none_from about_i18n errors)
  ∧ (∃ errors,
       validate ascii_lower (obj []) = Returns errors
       ∧ none_from family_i18n errors ∧ ¬ none_from about_i18n errors).
Proof.
  split.
  - destruct (validate_i18n_messages ascii_lower
                (list_to_map [(lit "i18n", JNull)]))
      as (errors & Hv & _ & Habout).
    exists errors. split; [exact Hv |].
    apply Habout. split; vm_compute; reflexivity.
  - destruct (validate_i18n_messages ascii_lower ∅)
      as (errors & Hv & Hblock & Habout).
    exists errors. split; [exact Hv |]. split.
    + apply Hblock. vm_compute. reflexivity.
    + intros [H _]%Habout. vm_compute in H. discriminate H.
Defined.

